(** * MotionMatch: the indexing task, the search service, the job ETA and
      the anomaly detector, embedded from the Python sources.

    Conventions of the embedding.
    - numpy arrays are lists of real numbers ([vector]) and lists of rows
      ([matrix]); arithmetic is the exact arithmetic of [R]: the rounding of
      the 32-bit floats and their [nan] are not modelled, [inf] only where
      the source produces it itself.
    - Python dictionaries used as stores (the Milvus collection, the directory
      of [.npy] files, the [videos] table, the query cache) are [gmap]s.
    - A Python function that mutates the stores and may raise is a function
      [world -> result A * world]; the outcomes of the calls that leave the
      process (download, file system, encoder, Milvus, PostgreSQL) are read
      from an environment record.
    - A global name that a module uses is looked up among the names the
      module binds; a name it does not bind raises [NameError] where it is
      evaluated. *)

From Stdlib Require Import Reals Lra Lia List QArith.
From stdpp Require Import gmap strings list.
From Stdlib Require Import Sorted.

Open Scope string_scope.

(** ** Shared data model (db/models.py) *)

Definition vector := list R.
Definition matrix := list (list R).

(** [VideoFeatures] of db/models.py. [metadata] keeps the numeric entries of
    the dictionary, of which ["processing_time_ms"] is the one read back. *)
Record VideoFeatures := {
  video_id : string;
  global_features : vector;
  temporal_features : matrix;
  metadata : gmap string R;
  created_at : R
}.

(** Exceptions. The kinds are the ones a collaborator can raise; every
    constructor is a subclass of Python's [Exception]. *)
Inductive error_kind :=
| decode_error | resource_error | encoder_error | io_error
| not_found | timeout | internal.

Inductive exn :=
| ValueError (msg : string)
| KeyError (key : string)
| NameError (name : string)
| Exception (kind : error_kind) (msg : string)
| MaxRetriesExceededError
| Retry (countdown : nat).

Inductive result (A : Type) :=
| Ok (a : A)
| Raise (e : exn).
Arguments Ok {A} a.
Arguments Raise {A} e.

(** [str(e)]. A [KeyError] renders the [repr] of its key, with the quotes;
    the two Celery exceptions are never rendered by the code embedded here. *)
Definition str (e : exn) : string :=
  match e with
  | ValueError m => m
  | KeyError k => "'" ++ k ++ "'"
  | NameError n => "name '" ++ n ++ "' is not defined"
  | Exception _ m => m
  | MaxRetriesExceededError => "MaxRetriesExceededError"
  | Retry _ => "Retry"
  end.

(** [<storage>/temporal_features/<video_id>_temporal.npy], as built by both
    [store_temporal_features] (tasks.py) and [_rerank_results] (search.py). *)
Definition temporal_path (STORAGE_PATH vid : string) : string :=
  STORAGE_PATH ++ "/temporal_features/" ++ vid ++ "_temporal.npy".

(** ** workers/tasks.py *)
Module Tasks.

Inductive status := pending | processing | completed | failed.

(** Row of the [videos] table (db/postgres.py, class [Video]). *)
Record Video := {
  video_url : string;
  v_status : status;
  error_message : option string;
  temporal_features_path : option string;
  duration : option R;
  resolution : option string;
  fps : option nat;
  file_size : option nat;
  processing_time_ms : option R
}.

(** Entry of the Milvus collection written by [vector_db.insert_video]. *)
Record VectorEntry := {
  embedding : vector;
  ve_video_path : string;
  ve_duration : R;
  ve_created_at : R
}.

(** Calls observed on the stores, in program order. *)
Inductive event :=
| EvStatus (vid : string) (s : status)
| EvEncode (path : string)
| EvVectorInsert (vid : string)
| EvTemporalWrite (vid : string)
| EvMetadataUpsert (vid : string)
| EvRetry (countdown : nat).

Record world := {
  vector_db : gmap string VectorEntry;      (* C2: Milvus, by video id *)
  temporal_files : gmap string matrix;      (* C3: .npy files, by path *)
  videos : gmap string Video;               (* C4: videos table *)
  calls : list event
}.

Definition M (A : Type) : Type := world -> result A * world.

Definition ret {A} (a : A) : M A := fun w => (Ok a, w).
Definition raise {A} (e : exn) : M A := fun w => (Raise e, w).
Definition bind {A B} (m : M A) (k : A -> M B) : M B :=
  fun w => match m w with
           | (Ok a, w') => k a w'
           | (Raise e, w') => (Raise e, w')
           end.
(** [try: m except Exception as e: h e] *)
Definition try_except {A} (m : M A) (h : exn -> M A) : M A :=
  fun w => match m w with
           | (Ok a, w') => (Ok a, w')
           | (Raise e, w') => h e w'
           end.
(** The value of a call that leaves the process: its outcome is given. *)
Definition external {A} (r : result A) : M A := fun w => (r, w).

Notation "'let*' x ':=' m 'in' k" := (bind m (fun x => k))
  (at level 10, x name, m at level 100, k at level 200).
Notation "m '>>' k" := (bind m (fun _ => k))
  (at level 100, k at level 200, right associativity).

Definition emit (e : event) : M unit :=
  fun w => (Ok tt, {| vector_db := vector_db w; temporal_files := temporal_files w;
                      videos := videos w; calls := calls w ++ [e] |}).
Definition set_vector_db (f : gmap string VectorEntry -> gmap string VectorEntry) : M unit :=
  fun w => (Ok tt, {| vector_db := f (vector_db w); temporal_files := temporal_files w;
                      videos := videos w; calls := calls w |}).
Definition set_temporal_files (f : gmap string matrix -> gmap string matrix) : M unit :=
  fun w => (Ok tt, {| vector_db := vector_db w; temporal_files := f (temporal_files w);
                      videos := videos w; calls := calls w |}).
Definition set_videos (f : gmap string Video -> gmap string Video) : M unit :=
  fun w => (Ok tt, {| vector_db := vector_db w; temporal_files := temporal_files w;
                      videos := f (videos w); calls := calls w |}).

(** [Video(video_id=..., video_url="", status=status)] *)
Definition new_video (s : status) : Video :=
  {| video_url := ""; v_status := s; error_message := None;
     temporal_features_path := None; duration := None; resolution := None;
     fps := None; file_size := None; processing_time_ms := None |}.

Definition with_status (s : status) (v : Video) : Video :=
  {| video_url := video_url v; v_status := s; error_message := error_message v;
     temporal_features_path := temporal_features_path v; duration := duration v;
     resolution := resolution v; fps := fps v; file_size := file_size v;
     processing_time_ms := processing_time_ms v |}.

Definition with_error (err : option string) (v : Video) : Video :=
  {| video_url := video_url v; v_status := v_status v; error_message := err;
     temporal_features_path := temporal_features_path v; duration := duration v;
     resolution := resolution v; fps := fps v; file_size := file_size v;
     processing_time_ms := processing_time_ms v |}.

(** db/postgres.py [update_indexing_status]. It never raises: a failing
    commit is logged and rolled back ([db_ok = false]), leaving the table as
    it was. *)
Definition update_indexing_status (db_ok : bool) (vid : string) (s : status)
    (error : option string) : M unit :=
  emit (EvStatus vid s) >>
  if db_ok then
    set_videos (fun t =>
      let video := match t !! vid with
                   | None => new_video s
                   | Some v => with_status s v
                   end in
      let video := match s with
                   | failed => with_error error video
                   | _ => video
                   end in
      <[vid := video]> t)
  else ret tt.

(** The task's [metadata] argument: the two keys the task reads. *)
Record task_metadata := {
  md_resolution : option string;
  md_fps : option nat
}.

(** A value assigned to the [DateTime] column [indexed_at]: a datetime, or
    a Python float, which the column refuses when the session is flushed. *)
Inductive timestamp_value :=
| Datetime (t : R)
| Float (x : R).

(** db/postgres.py [update_video_metadata], applied to the [video_metadata]
    dictionary of the task: every key that is a column is assigned with
    [setattr], then the session is committed. It never raises: a failing
    commit is logged and rolled back, which leaves the table as it was. The
    commit fails when the database refuses it ([db_ok = false]) and whenever
    [indexed_at] holds a float. Of the caller's own dictionary, merged in by
    [video_metadata.update(metadata)], the two keys the task reads are kept. *)
Definition update_video_metadata (db_ok : bool) (vid url : string) (dur : R)
    (md : option task_metadata) (size : option nat) (tpath : string)
    (indexed_at : timestamp_value) (ms : R) : M unit :=
  emit (EvMetadataUpsert vid) >>
  match indexed_at with
  | Float _ => ret tt
  | Datetime _ =>
      if db_ok then
        set_videos (fun t =>
          let old := match t !! vid with
                     | None => new_video pending
                     | Some v => v
                     end in
          <[vid := {| video_url := url; v_status := v_status old;
                      error_message := error_message old;
                      temporal_features_path := Some tpath;
                      duration := Some dur;
                      resolution := match md with Some m => md_resolution m | None => None end;
                      fps := match md with Some m => md_fps m | None => None end;
                      file_size := size;
                      processing_time_ms := Some ms |}]> t)
      else ret tt
  end.

(** Outcomes, during one execution of the task, of the calls that leave the
    process. *)
Record attempt_env := {
  http_download : result string;        (* requests.get + write, returns local path *)
  path_exists : bool;                   (* os.path.exists(local_path) *)
  encode_video : result VideoFeatures;  (* encoder_service.encode_video *)
  get_video_duration : R;               (* catches its own errors *)
  insert_video : result bool;           (* vector_db.insert_video *)
  np_save : result unit;                (* os.makedirs + np.save *)
  getsize : result (option nat);        (* os.path.getsize if exists else None *)
  os_remove : result unit;              (* cleanup of the downloaded file *)
  time_time : R;                        (* time.time() *)
  db_processing_ok : bool;
  db_metadata_ok : bool;
  db_completed_ok : bool;
  db_failed_ok : bool
}.

(** [video_url.startswith(('http://', 'https://', 's3://'))] *)
Definition is_remote (url : string) : bool :=
  String.prefix "http://" url || String.prefix "https://" url || String.prefix "s3://" url.

Record task_result := {
  tr_video_id : string;
  tr_status : status;
  tr_duration : R
}.

Definition max_retries : nat := 3.   (* @celery_app.task(bind=True, max_retries=3) *)

(** [self.retry(exc=e, countdown=c)] of Celery's [Task.retry]: with
    [retries = self.request.retries], the call re-queues the task and raises
    [Retry], unless [retries + 1 > max_retries], when it raises [exc]. *)
Definition retry {A} (retries : nat) (exc : exn) (countdown : nat) : M A :=
  if (max_retries <? retries + 1)%nat then raise exc
  else emit (EvRetry countdown) >> raise (Retry countdown).

(** The names tasks.py binds at module level: its imports (lines 2-12) and
    its definitions. [config] is used in three of its functions and is not
    among them. *)
Definition tasks_globals : list string :=
  [ "os"; "time"; "logging"; "List"; "Dict"; "Any"; "current_task";
    "MaxRetriesExceededError"; "celery_app"; "encoder_service"; "vector_db";
    "update_indexing_status"; "update_video_metadata"; "logger";
    "index_video_task"; "batch_index_task"; "download_video";
    "get_video_duration"; "store_temporal_features" ].

(** The evaluation of a global name inside a function of tasks.py. *)
Definition global_name (name : string) : M unit :=
  if existsb (String.eqb name) tasks_globals then ret tt
  else raise (NameError name).

Section IndexVideo.
(** The value [config.STORAGE_PATH] has in core/config.py, for the code
    that would read it. *)
Variable STORAGE_PATH : string.

(** [download_video] (lines 178-200): the directory is read from
    [config.TEMP_PATH] before the request is made. *)
Definition download_video (env : attempt_env) : M string :=
  global_name "config" >>
  external (http_download env).

(** Modelled from the spec: db/vector_db.py is not among the sources. The
    spec's [insert(video_id, vector, attrs)] replaces the entry of the same
    id; an insert that reports failure leaves the collection as it was. *)
Definition vector_db_insert_video (env : attempt_env) (vid : string)
    (emb : vector) (path : string) (dur created : R) : M bool :=
  emit (EvVectorInsert vid) >>
  let* success := external (insert_video env) in
  (if success
   then set_vector_db (fun c =>
          <[vid := {| embedding := emb; ve_video_path := path;
                      ve_duration := dur; ve_created_at := created |}]> c)
   else ret tt) >>
  ret success.

(** [store_temporal_features] (lines 218-230): the directory is read from
    [config.STORAGE_PATH] before anything is written. *)
Definition store_temporal_features (env : attempt_env) (vid : string)
    (t : matrix) : M string :=
  global_name "config" >>
  let feature_path := temporal_path STORAGE_PATH vid in
  emit (EvTemporalWrite vid) >>
  external (np_save env) >>
  set_temporal_files (fun fs => <[feature_path := t]> fs) >>
  ret feature_path.

(** The [try] block of [index_video_task]. After the existence test, line
    35 evaluates [config.ENABLE_SHOT_SEGMENTATION], the first use of
    [config] on the path of a local file. What follows is the code a bound
    [config] would let run: tasks.py imports neither
    [shot_segmentation_service] nor [roi_detection_service], so both
    [... in globals()] tests are false, [segments] stays empty, [roi_info]
    stays [None] and the video is encoded whole. *)
Definition index_video_body (env : attempt_env) (vid url : string)
    (md : option task_metadata) : M task_result :=
  update_indexing_status (db_processing_ok env) vid processing None >>
  let* local_path :=
    (if is_remote url then download_video env else ret url) in
  (if path_exists env then ret tt
   else raise (ValueError ("Video file not found: " ++ local_path))) >>
  global_name "config" >>
  let* features := (emit (EvEncode local_path) >> external (encode_video env)) in
  let dur := get_video_duration env in
  let* success :=
    vector_db_insert_video env vid (global_features features) url dur
      (created_at features) in
  (if success then ret tt
   else raise (Exception internal "Failed to insert into vector database")) >>
  let* tpath := store_temporal_features env vid (temporal_features features) in
  let* size := external (getsize env) in
  let* ms := (match metadata features !! "processing_time_ms" with
              | Some ms => ret ms
              | None => raise (KeyError "processing_time_ms")
              end) in
  update_video_metadata (db_metadata_ok env) vid url dur md size tpath
    (Float (time_time env)) ms >>
  (if negb (String.eqb local_path url) then external (os_remove env) else ret tt) >>
  update_indexing_status (db_completed_ok env) vid completed None >>
  ret {| tr_video_id := vid; tr_status := completed; tr_duration := dur |}.

(** [index_video_task], one execution with [self.request.retries = retries]. *)
Definition index_video_task (env : attempt_env) (retries : nat)
    (vid url : string) (md : option task_metadata) : M task_result :=
  try_except (index_video_body env vid url md)
    (fun e =>
       match e with
       | MaxRetriesExceededError =>
           update_indexing_status (db_failed_ok env) vid failed
             (Some "Max retries exceeded") >>
           raise e
       | _ =>
           update_indexing_status (db_failed_ok env) vid failed (Some (str e)) >>
           retry retries e (60 * 2 ^ retries)%nat
       end).

(** The worker: an execution that ends in [Retry] is run again with
    [retries + 1]; [envs k] gives the outcomes met by execution [k]. *)
Fixpoint run_attempts (fuel : nat) (envs : nat -> attempt_env) (retries : nat)
    (vid url : string) (md : option task_metadata) : M task_result :=
  fun w =>
    match index_video_task (envs retries) retries vid url md w with
    | (Raise (Retry c), w') =>
        match fuel with
        | O => (Raise (Retry c), w')
        | S fuel' => run_attempts fuel' envs (S retries) vid url md w'
        end
    | rw => rw
    end.

Definition run_task (envs : nat -> attempt_env) (vid url : string)
    (md : option task_metadata) : M task_result :=
  run_attempts max_retries envs 0 vid url md.

End IndexVideo.

(** The exception in which the [try] block ends for a request: a remote
    file is handed to [download_video], a local file that is there gets as
    far as line 35, and a local file that is missing is reported as such. *)
Definition body_exception (env : attempt_env) (url : string) : exn :=
  if is_remote url then NameError "config"
  else if path_exists env then NameError "config"
  else ValueError ("Video file not found: " ++ url).

(** The events of the three-store commit, for one video. *)
Definition is_commit_event (e : event) : bool :=
  match e with
  | EvVectorInsert _ | EvTemporalWrite _ | EvMetadataUpsert _ => true
  | _ => false
  end.

Definition commit_events (l : list event) : list event :=
  List.filter is_commit_event l.

Definition retry_countdowns (l : list event) : list nat :=
  List.flat_map (fun e => match e with EvRetry c => [c] | _ => [] end) l.

(** The order in which the claim C2 has the three stores written. *)
Definition order_temporal_first (vid : string) : list event :=
  [EvTemporalWrite vid; EvVectorInsert vid; EvMetadataUpsert vid].



(** The countdowns of the retries [k], [k + 1], ..., [k + n - 1]. *)
Definition backoff (k n : nat) : list nat :=
  List.map (fun i => 60 * 2 ^ i)%nat (seq k n).

Definition empty_world : world :=
  {| vector_db := ∅; temporal_files := ∅; videos := ∅; calls := [] |}.


(** A video file that encodes to a one-step, one-dimensional embedding. *)
Definition sample_features : VideoFeatures :=
  {| video_id := "v1"; global_features := [1%R]; temporal_features := [[1%R]];
     metadata := {[ "processing_time_ms" := 5%R ]}; created_at := 0%R |}.

(** The file is there and every collaborator would succeed. *)
Definition env_ok : attempt_env :=
  {| http_download := Ok "./temp/downloads/v1.mp4"; path_exists := true;
     encode_video := Ok sample_features; get_video_duration := 2%R;
     insert_video := Ok true; np_save := Ok tt; getsize := Ok (Some 10);
     os_remove := Ok tt; time_time := 0%R; db_processing_ok := true; db_metadata_ok := true;
     db_completed_ok := true; db_failed_ok := true |}.

(** The file is there and is not a video the encoder can decode. *)
Definition env_decode_error : attempt_env :=
  {| http_download := Ok "./temp/downloads/v1.mp4"; path_exists := true;
     encode_video := Raise (Exception decode_error "not a parseable video");
     get_video_duration := 2%R;
     insert_video := Ok true; np_save := Ok tt; getsize := Ok (Some 10);
     os_remove := Ok tt; time_time := 0%R; db_processing_ok := true; db_metadata_ok := true;
     db_completed_ok := true; db_failed_ok := true |}.

End Tasks.

(** ** numpy, scipy and fastdtw operations used by the services *)
Module Np.
Local Open Scope R_scope.

Definition sum (v : vector) : R := fold_right Rplus 0 v.

(** [v.mean()] *)
Definition mean (v : vector) : R := sum v / INR (length v).

(** [v.var()]: the population variance, [mean(abs(v - v.mean())**2)]. *)
Definition var (v : vector) : R :=
  mean (map (fun x => (x - mean v) * (x - mean v)) v).

Definition inner (a b : vector) : R := sum (zip_with Rmult a b).

(** [np.dot(a, b)] on two 1-D arrays raises when the lengths differ. *)
Definition dot (a b : vector) : result R :=
  if Nat.eqb (length a) (length b) then Ok (inner a b)
  else Raise (ValueError "shapes not aligned").

(** [np.linalg.norm(v)] *)
Definition norm (v : vector) : R := sqrt (inner v v).

(** An elementwise operation on two 1-D arrays, with numpy's broadcasting of
    an array of length one; other lengths that differ raise. *)
Definition broadcast (f : R -> R -> R) (a b : vector) : result vector :=
  if Nat.eqb (length a) (length b) then Ok (zip_with f a b)
  else match a, b with
       | [x], _ => Ok (map (fun y => f x y) b)
       | _, [y] => Ok (map (fun x => f x y) a)
       | _, _ => Raise (ValueError "operands could not be broadcast together")
       end.

(** [scipy.spatial.distance.euclidean(u, v)]: the norm of [u - v]. *)
Definition euclidean (a b : vector) : result R :=
  match broadcast Rminus a b with
  | Ok d => Ok (norm d)
  | Raise e => Raise e
  end.

(** [m.shape[1]] and the column [m[:, j]] of a [T, D] array. *)
Definition ncols (m : matrix) : nat :=
  match m with
  | [] => 0%nat
  | row :: _ => length row
  end.
(** Every row of a numpy array has [m.shape[1]] entries; a list of rows
    stands for an array when it is rectangular. *)
Definition rectangular (m : matrix) : Prop :=
  Forall (fun row => length row = ncols m) m.
Definition column (m : matrix) (j : nat) : vector :=
  map (fun row => nth j row 0) m.

(** [m.mean(axis=0)] and [m.var(axis=0)] *)
Definition mean_axis0 (m : matrix) : vector :=
  map (fun j => mean (column m j)) (seq 0 (ncols m)).
Definition var_axis0 (m : matrix) : vector :=
  map (fun j => var (column m j)) (seq 0 (ncols m)).

(** [np.diff(m, axis=0)]: differences of consecutive rows. *)
Fixpoint diff (m : matrix) : matrix :=
  match m with
  | r1 :: ((r2 :: _) as rest) => zip_with Rminus r2 r1 :: diff rest
  | _ => []
  end.

(** [np.linalg.norm(m, axis=1)] *)
Definition norm_axis1 (m : matrix) : vector := map norm m.

(** A distance that may be [float('inf')]. *)
Inductive dist :=
| Finite (d : R)
| Inf.

Definition dist_add (c : R) (d : dist) : dist :=
  match d with
  | Finite x => Finite (c + x)
  | Inf => Inf
  end.
Definition dist_min (a b : dist) : dist :=
  match a, b with
  | Inf, _ => b
  | _, Inf => a
  | Finite x, Finite y => Finite (Rmin x y)
  end.

(** Exact dynamic time warping, the computation the fastdtw package falls
    back to when a series has fewer than [radius + 2] steps. The package
    refuses two series whose second dimensions differ, and an exception of
    [dist] ends the computation. [dtw_row] fills row [i] of the cost table
    from row [i - 1] ([up]), the cell to the left and the cell on the
    diagonal. *)
Fixpoint dtw_row (d : vector -> vector -> result R) (x : vector) (ys : matrix)
    (up : list dist) (left diag : dist) : result (list dist) :=
  match ys, up with
  | y :: ys', u :: up' =>
      match d x y with
      | Ok c =>
          let cur := dist_add c (dist_min (dist_min u left) diag) in
          match dtw_row d x ys' up' cur u with
          | Ok row => Ok (cur :: row)
          | Raise e => Raise e
          end
      | Raise e => Raise e
      end
  | _, _ => Ok []
  end.
Fixpoint dtw_rows (d : vector -> vector -> result R) (xs ys : matrix)
    (up : list dist) (corner : dist) : result (list dist) :=
  match xs with
  | [] => Ok up
  | x :: xs' =>
      match dtw_row d x ys up Inf corner with
      | Ok row => dtw_rows d xs' ys row Inf
      | Raise e => Raise e
      end
  end.
Definition dtw (xs ys : matrix) (radius : nat) (d : vector -> vector -> result R)
    : result R :=
  if negb (Nat.eqb (ncols xs) (ncols ys))
  then Raise (ValueError "second dimension of x and y must be the same")
  else
    match dtw_rows d xs ys (map (fun _ => Inf) ys) (Finite 0) with
    | Ok table =>
        match last table with
        | Some (Finite c) => Ok c
        | _ => Raise (ValueError "empty series")
        end
    | Raise e => Raise e
    end.

End Np.

(** ** services/search.py *)
Module Search.
Local Open Scope R_scope.

(** [SearchResult] of db/models.py; [sr_metadata] keeps the numeric entries. *)
Record SearchResult := {
  sr_video_id : string;
  similarity_score : R;
  distance : R;
  video_path : string;
  sr_metadata : gmap string R
}.

Definition with_score (c : SearchResult) (score temporal_score dtw_similarity : R)
    : SearchResult :=
  {| sr_video_id := sr_video_id c; similarity_score := score;
     distance := distance c; video_path := video_path c;
     sr_metadata := <["dtw_similarity" := dtw_similarity]>
                      (<["temporal_score" := temporal_score]> (sr_metadata c)) |}.

Section Rerank.
(** [fastdtw(x, y, radius, dist)] of the fastdtw package: the distance of
    the returned pair, or the exception raised. *)
Variable fastdtw :
  matrix -> matrix -> nat -> (vector -> vector -> result R) -> result R.
Variable STORAGE_PATH : string.
(** The [.npy] files under [<storage>/temporal_features], by path. *)
Variable temporal_files : gmap string matrix.

(** [_compute_dtw_distance], called with [use_gpu] left at [False]. *)
Definition _compute_dtw_distance (query_temporal candidate_temporal : matrix)
    : Np.dist :=
  match fastdtw query_temporal candidate_temporal 10 Np.euclidean with
  | Ok distance => Np.Finite distance
  | Raise _ => Np.Inf
  end.

(** [1.0 / (1.0 + dtw_dist)] *)
Definition dtw_similarity (dtw_dist : Np.dist) : R :=
  match dtw_dist with
  | Np.Finite d => 1 / (1 + d)
  | Np.Inf => 0
  end.

(** [np.dot(query_avg, candidate_avg) /
     (np.linalg.norm(query_avg) * np.linalg.norm(candidate_avg) + 1e-8)] *)
Definition cosine_sim (query_temporal candidate_temporal : matrix) : result R :=
  let query_avg := Np.mean_axis0 query_temporal in
  let candidate_avg := Np.mean_axis0 candidate_temporal in
  match Np.dot query_avg candidate_avg with
  | Ok d => Ok (d / (Np.norm query_avg * Np.norm candidate_avg + 1e-8))
  | Raise e => Raise e
  end.

Definition var_similarity (query_temporal candidate_temporal : matrix) : R :=
  let query_var := Np.mean (Np.var_axis0 query_temporal) in
  let candidate_var := Np.mean (Np.var_axis0 candidate_temporal) in
  1 - Rabs (query_var - candidate_var) / (query_var + candidate_var + 1e-8).

Definition temporal_score (s_dtw s_cos s_var : R) : R :=
  0.5 * s_dtw + 0.3 * s_cos + 0.2 * s_var.

Definition combined_score (s_temp s_global : R) : R :=
  0.7 * s_temp + 0.3 * s_global.

(** The body of the loop of [_rerank_results] for one candidate: the
    candidate as appended to [reranked_candidates]. A candidate without a
    temporal file, or whose computation raises, is appended unchanged. *)
Definition rerank_candidate (query_temporal : matrix) (candidate : SearchResult)
    : SearchResult :=
  match temporal_files !! temporal_path STORAGE_PATH (sr_video_id candidate) with
  | Some candidate_temporal =>
      let s_dtw :=
        dtw_similarity (_compute_dtw_distance query_temporal candidate_temporal) in
      match cosine_sim query_temporal candidate_temporal with
      | Ok s_cos =>
          let s_var := var_similarity query_temporal candidate_temporal in
          let s_temp := temporal_score s_dtw s_cos s_var in
          with_score candidate
            (combined_score s_temp (similarity_score candidate)) s_temp s_dtw
      | Raise _ => candidate
      end
  | None => candidate
  end.

(** [l.sort(key=lambda x: x.similarity_score, reverse=True)]: a stable
    sort by decreasing score, candidates of equal score staying in the order
    they had. [sort_desc] inserts the elements from the last to the first,
    so [insert_desc x l] meets in [l] only elements that came after [x]: it
    puts [x] in front of the first one whose score is not higher. *)
Fixpoint insert_desc (x : SearchResult) (l : list SearchResult)
    : list SearchResult :=
  match l with
  | [] => [x]
  | y :: l' =>
      if Rle_dec (similarity_score y) (similarity_score x)
      then x :: y :: l'
      else y :: insert_desc x l'
  end.
Definition sort_desc (l : list SearchResult) : list SearchResult :=
  fold_right insert_desc [] l.

(** Python's [l[:k]] for an integer [k]. *)
Definition slice_to {A} (l : list A) (k : Z) : list A :=
  if (k <? 0)%Z then firstn (length l - Z.to_nat (- k)) l
  else firstn (Z.to_nat k) l.

Definition _rerank_results (query_temporal : matrix)
    (candidates : list SearchResult) (top_k : Z) : list SearchResult :=
  slice_to (sort_desc (map (rerank_candidate query_temporal) candidates)) top_k.

End Rerank.

(** *** The query cache of [_encode_query_video] *)

(** A file of [<storage>/query_cache]: [np.load] and the reconstruction of
    the [VideoFeatures] succeed, or raise. *)
Inductive cache_file :=
| Valid (f : VideoFeatures)
| Corrupt.

(** What the threads of the service share. [encoder_calls] records every
    call of [encoder_service.encode_video] as (thread, path). *)
Record shared := {
  query_cache : gmap string VideoFeatures;   (* self.query_cache, by cache key *)
  disk_cache : gmap string cache_file;       (* <hash>.npz, by hash *)
  encoder_calls : list (nat * string)
}.

(** Where a thread stands inside [_encode_query_video]. Between two of these
    points the thread holds no lock; [cache_lock] is taken only for the
    lookup at [AtMemory] and for the stores at [AtLoaded] and [AtStore]. *)
Inductive pc :=
| AtMemory (video_path : string)                 (* line 84: with self.cache_lock *)
| AtDisk (video_path : string)                   (* line 94: cache_file.exists() *)
| AtLoaded (video_path : string) (f : VideoFeatures)  (* line 110 *)
| AtEncode (video_path : string)                 (* line 124 *)
| AtSave (video_path : string) (f : VideoFeatures)    (* line 128 *)
| AtStore (video_path : string) (f : VideoFeatures)   (* line 141 *)
| Done (r : result VideoFeatures).

Definition cache_key (file_hash : string) : string := "query_" ++ file_hash.

Section QueryCache.
(** The hex digest computed at the head of [_encode_query_video]: the md5
    of the first MiB of the file, or of the path when the file cannot be
    read. *)
Variable file_hash : string -> string.
(** [encoder_service.encode_video] *)
Variable encode_video : string -> result VideoFeatures.
(** Whether [np.savez] and [cache_file.unlink] succeed for a hash; their
    exceptions are caught and logged. *)
Variable savez_ok : string -> bool.
Variable unlink_ok : string -> bool.

Definition set_query_cache (s : shared) (k : string) (f : VideoFeatures) : shared :=
  {| query_cache := <[k := f]> (query_cache s); disk_cache := disk_cache s;
     encoder_calls := encoder_calls s |}.
Definition set_disk_cache (s : shared) (d : gmap string cache_file) : shared :=
  {| query_cache := query_cache s; disk_cache := d;
     encoder_calls := encoder_calls s |}.
Definition log_encoder_call (s : shared) (tid : nat) (path : string) : shared :=
  {| query_cache := query_cache s; disk_cache := disk_cache s;
     encoder_calls := (encoder_calls s ++ [(tid, path)])%list |}.

(** One uninterrupted stretch of [_encode_query_video] run by thread [tid]. *)
Definition thread_step (tid : nat) (s : shared) (p : pc) : shared * pc :=
  match p with
  | AtMemory path =>
      match query_cache s !! cache_key (file_hash path) with
      | Some f => (s, Done (Ok f))
      | None => (s, AtDisk path)
      end
  | AtDisk path =>
      match disk_cache s !! file_hash path with
      | Some (Valid f) => (s, AtLoaded path f)
      | Some Corrupt =>
          (if unlink_ok (file_hash path)
           then set_disk_cache s (delete (file_hash path) (disk_cache s))
           else s,
           AtEncode path)
      | None => (s, AtEncode path)
      end
  | AtLoaded path f =>
      (set_query_cache s (cache_key (file_hash path)) f, Done (Ok f))
  | AtEncode path =>
      let s' := log_encoder_call s tid path in
      match encode_video path with
      | Ok f => (s', AtSave path f)
      | Raise e => (s', Done (Raise e))
      end
  | AtSave path f =>
      (if savez_ok (file_hash path)
       then set_disk_cache s (<[file_hash path := Valid f]> (disk_cache s))
       else s,
       AtStore path f)
  | AtStore path f =>
      (set_query_cache s (cache_key (file_hash path)) f, Done (Ok f))
  | Done r => (s, Done r)
  end.

Fixpoint run_thread (fuel : nat) (tid : nat) (s : shared) (p : pc) : shared * pc :=
  match fuel with
  | O => (s, p)
  | S fuel' => let '(s', p') := thread_step tid s p in run_thread fuel' tid s' p'
  end.

(** [_encode_query_video] run by one thread without interruption: the
    longest path, a miss in both caches, takes five stretches. *)
Definition _encode_query_video (video_path : string) (s : shared)
    : option (result VideoFeatures) * shared :=
  match run_thread 5 0 s (AtMemory video_path) with
  | (s', Done r) => (Some r, s')
  | (s', _) => (None, s')
  end.

(** **** Several threads *)
Record system := {
  mem : shared;
  threads : list pc
}.

(** Thread [i] runs its next stretch. *)
Definition step_thread (i : nat) (c : system) : system :=
  match threads c !! i with
  | Some p =>
      let '(s', p') := thread_step i (mem c) p in
      {| mem := s'; threads := <[i := p']> (threads c) |}
  | None => c
  end.

Definition run_schedule (sched : list nat) (c : system) : system :=
  fold_left (fun c i => step_thread i c) sched c.

(** Calls of the encoder made by thread [i], and made for a fingerprint. *)
Definition calls_by (i : nat) (s : shared) : nat :=
  length (filter (fun c => fst c = i) (encoder_calls s)).
Definition calls_for (h : string) (s : shared) : nat :=
  length (filter (fun c => file_hash (snd c) = h) (encoder_calls s)).

(** Invariants of a thread [i] under any schedule: what is left for it to
    spend on the encoder, and the state of a thread whose lookup in
    [query_cache] is bound to hit. *)
Definition budget (p : pc) : nat :=
  match p with
  | AtMemory _ | AtDisk _ | AtEncode _ => 1
  | _ => 0
  end.
Definition spends_at_most_once (i : nat) (c : system) : Prop :=
  forall p, threads c !! i = Some p -> (calls_by i (mem c) + budget p <= 1)%nat.
Definition served_from_memory (i : nat) (c : system) : Prop :=
  calls_by i (mem c) = 0%nat /\
  ((exists path, threads c !! i = Some (AtMemory path) /\
                 is_Some (query_cache (mem c) !! cache_key (file_hash path)))
   \/ (exists r, threads c !! i = Some (Done r))).

(** Queries that start together, on cold caches. *)
Definition cold : shared :=
  {| query_cache := ∅; disk_cache := ∅; encoder_calls := [] |}.
Definition start (s : shared) (paths : list string) : system :=
  {| mem := s; threads := map AtMemory paths |}.

End QueryCache.

(** *** [SearchService.search] *)

Record SearchFilters := {
  duration_min : option R;
  duration_max : option R;
  tags : option (list string)
}.
Record SearchOptions := {
  enable_reranking : bool;
  include_temporal_analysis : bool
}.
Record SearchRequest := {
  query_video_url : string;
  top_k : Z;
  filters : option SearchFilters;
  options : option SearchOptions
}.
(** [SearchResponse] without the random [query_id] and the wall-clock
    [processing_time_ms]. *)
Record SearchResponse := {
  results : list SearchResult;
  total_results : nat
}.

Definition SEARCH_TOP_K : nat := 50.   (* core/config.py *)

Section SearchService.
Variable fastdtw :
  matrix -> matrix -> nat -> (vector -> vector -> result R) -> result R.
Variable STORAGE_PATH : string.
Variable temporal_files : gmap string matrix.
Variable file_hash : string -> string.
Variable encode_video : string -> result VideoFeatures.
Variable savez_ok unlink_ok : string -> bool.
(** [vector_db.search_similar(query_embedding, top_k, filters)] *)
Variable search_similar :
  vector -> nat -> option SearchFilters -> result (list SearchResult).

Definition search (request : SearchRequest) (s : shared)
    : option (result SearchResponse) * shared :=
  match _encode_query_video file_hash encode_video savez_ok unlink_ok
          (query_video_url request) s with
  | (Some (Ok query_features), s') =>
      match search_similar (global_features query_features) SEARCH_TOP_K
              (filters request) with
      | Ok candidates =>
          let enable := match options request with
                        | Some o => enable_reranking o
                        | None => false
                        end in
          let candidates :=
            if enable && (0 <? length candidates)%nat
            then _rerank_results fastdtw STORAGE_PATH temporal_files
                   (temporal_features query_features) candidates (top_k request)
            else slice_to candidates (top_k request) in
          (Some (Ok {| results := candidates;
                       total_results := length candidates |}), s')
      | Raise e => (Some (Raise e), s')
      end
  | (Some (Raise e), s') => (Some (Raise e), s')
  | (None, s') => (None, s')
  end.

End SearchService.

(** The score of the claim C3, in its words: as [rerank_candidate], but with
    the plain cosine of the two row-means for [s_cos]. *)
Definition cosine (a b : vector) : R :=
  Np.inner a b / (Np.norm a * Np.norm b).
Definition claimed_score
    (fastdtw : matrix -> matrix -> nat -> (vector -> vector -> result R) -> result R)
    (Q C : matrix) (s_global : R) : R :=
  let s_dtw := dtw_similarity (_compute_dtw_distance fastdtw Q C) in
  let s_cos := cosine (Np.mean_axis0 Q) (Np.mean_axis0 C) in
  let s_var := var_similarity Q C in
  0.7 * (0.5 * s_dtw + 0.3 * s_cos + 0.2 * s_var) + 0.3 * s_global.

(** Modelled from the spec: db/vector_db.py is not among the sources. The
    similarity reported by the vector index is [(1 + cosine) / 2] clipped to
    [[0, 1]]. *)
Definition index_score (cos : R) : R := Rmax 0 (Rmin 1 ((1 + cos) / 2)).

(** One indexed video whose single temporal step equals the query's, and one
    whose step points the other way; the query is [[[1]]]. *)
Definition candidate_same : SearchResult :=
  {| sr_video_id := "v1"; similarity_score := 1; distance := 0;
     video_path := "/data/v1.mp4"; sr_metadata := ∅ |}.
Definition files_same : gmap string matrix :=
  {[ temporal_path "./storage" "v1" := [[1]] ]}.
(** The same video when its step, like the query's, is small, and when its
    matrix has one column more than the query's. *)
Definition files_faint : gmap string matrix :=
  {[ temporal_path "./storage" "v1" := [[0.0001]] ]}.
Definition files_wider : gmap string matrix :=
  {[ temporal_path "./storage" "v1" := [[1; 0]] ]}.
Definition candidate_opposite : SearchResult :=
  {| sr_video_id := "v2"; similarity_score := 0.1; distance := 0.8;
     video_path := "/data/v2.mp4"; sr_metadata := ∅ |}.
Definition files_opposite : gmap string matrix :=
  {[ temporal_path "./storage" "v2" := [[-9]] ]}.

(** Two queries of the same file, and collaborators that always succeed. *)
Definition query_features : VideoFeatures :=
  {| video_id := "q"; global_features := [1]; temporal_features := [[1]];
     metadata := ∅; created_at := 0 |}.
Definition hash_of_content (path : string) : string := path.
Definition encoder_ok (path : string) : result VideoFeatures := Ok query_features.
Definition always (h : string) : bool := true.
(** The in-memory cache after one query of ["q.mp4"] has completed. *)
Definition warm : shared :=
  {| query_cache := {[ cache_key "q.mp4" := query_features ]};
     disk_cache := {[ "q.mp4" := Valid query_features ]};
     encoder_calls := [] |}.

End Search.

(** ** db/postgres.py: indexing jobs *)
Module Postgres.
Local Open Scope Q_scope.

(** Row of [indexing_jobs]. Timestamps are seconds on the database clock. *)
Record IndexingJob := {
  total_videos : Z;
  completed : Z;
  failed : Z;
  status : string;
  started_at : option Q;
  completed_at : option Q;
  error_message : option string
}.

(** The dictionary returned by [get_indexing_job] (without the timestamps
    rendered as text). *)
Record JobStatus := {
  js_status : string;
  js_total_videos : Z;
  js_completed : Z;
  js_failed : Z;
  progress_percentage : Q;
  eta_seconds : option Q
}.

(** [create_indexing_job]: the row is added and committed. [job_id] is the
    primary key: the commit of a second row with the same id fails, is
    logged and rolled back, and the row that was there stays. *)
Definition create_indexing_job (jobs : gmap string IndexingJob) (job_id : string)
    (total : Z) : gmap string IndexingJob :=
  match jobs !! job_id with
  | Some _ => jobs
  | None =>
      <[job_id := {| total_videos := total; completed := 0; failed := 0;
                     status := "queued"; started_at := None; completed_at := None;
                     error_message := None |}]> jobs
  end.

(** A Python string or [None] used as a condition. *)
Definition truthy (o : option string) : option string :=
  match o with
  | Some s => if String.eqb s "" then None else Some s
  | None => None
  end.

(** [update_job_progress]; [now] is the value of [func.now()]. *)
Definition update_job_progress (now : Q) (jobs : gmap string IndexingJob)
    (job_id : string) (completed' failed' : Z) (status' error : option string)
    : gmap string IndexingJob :=
  match jobs !! job_id with
  | Some job =>
      let '(st, started, finished) :=
        match truthy status' with
        | Some s =>
            if String.eqb s "processing" && negb (bool_decide (is_Some (started_at job)))
            then (s, Some now, completed_at job)
            else if String.eqb s "completed" || String.eqb s "completed_with_errors"
                    || String.eqb s "failed"
            then (s, started_at job, Some now)
            else (s, started_at job, completed_at job)
        | None => (status job, started_at job, completed_at job)
        end in
      <[job_id := {| total_videos := total_videos job; completed := completed';
                     failed := failed'; status := st; started_at := started;
                     completed_at := finished;
                     error_message := match truthy error with
                                      | Some e => Some e
                                      | None => error_message job
                                      end |}]> jobs
  | None => jobs
  end.

(** What the evaluation of a Python expression gives: a number, or an
    exception. *)
Inductive evaluated :=
| Number (q : Q)
| Raises.

(** [(func.now() - job.started_at).total_seconds()] of line 210.
    [func.now()] is the SQL expression [now()], not the time [now] of the
    database clock, and so is its difference with a timestamp: the
    expression has no method [total_seconds], and asking for it raises
    [AttributeError]. *)
Definition elapsed_since (now started_at : Q) : evaluated := Raises.

(** [get_indexing_job]; [now] is the time of the database clock. The
    result is [None] when the job is unknown, and also when the body raises,
    which the function catches and logs. *)
Definition get_indexing_job (now : Q) (jobs : gmap string IndexingJob)
    (job_id : string) : option JobStatus :=
  match jobs !! job_id with
  | Some job =>
      let progress_pct :=
        if (0 <? total_videos job)%Z
        then inject_Z (completed job + failed job) / inject_Z (total_videos job) * 100
        else 0 in
      let answer eta :=
        Some {| js_status := status job; js_total_videos := total_videos job;
                js_completed := completed job; js_failed := failed job;
                progress_percentage := progress_pct; eta_seconds := eta |} in
      match started_at job with
      | Some t =>
          if (0 <? completed job)%Z then
            match elapsed_since now t with
            | Number elapsed =>
                if (completed job + failed job =? 0)%Z then None
                else
                  let avg_time := elapsed / inject_Z (completed job + failed job) in
                  let remaining :=
                    (total_videos job - completed job - failed job)%Z in
                  answer (Some (inject_Z remaining * avg_time))
            | Raises => None
            end
          else answer None
      | None => answer None
      end
  | None => None
  end.

(** The job table after [batch_index_task] has created a job of two videos
    and recorded the first as completed. *)
Definition jobs_one_done : gmap string IndexingJob :=
  update_job_progress 5 (create_indexing_job ∅ "job1" 2) "job1" 1 0 None None.

(** A running job of three videos, started at time 0, one completed and one
    failed. *)
Definition jobs_started : gmap string IndexingJob :=
  {[ "job1" := {| total_videos := 3; completed := 1; failed := 1;
                  status := "processing"; started_at := Some 0;
                  completed_at := None; error_message := None |} ]}.

End Postgres.

(** ** services/anomaly_detection.py *)
Module Anomaly.
Local Open Scope R_scope.

(** The dictionary built by [establish_baseline]. *)
Record baseline := {
  mean_temporal_variance : vector;
  std_temporal_variance : vector;
  mean_motion_magnitude : R;
  std_motion_magnitude : R;
  num_videos : nat
}.

(** The service: [baseline_features] is [None] for the empty dictionary the
    constructor installs. [encoder_calls] records the paths handed to
    [encoder_service.encode_video]. *)
Record service := {
  baseline_features : option baseline;
  encoder_calls : list string
}.

Record detection := {
  d_video_path : string;
  is_anomaly : bool;
  anomaly_score : R;
  motion_z_score : R;
  variance_z_score : R;
  motion_magnitude : R;
  threshold : R;
  confidence : R
}.

Record moment := {
  frame_start : nat;
  frame_end : nat;
  timestamp_start : R;
  timestamp_end : R;
  m_motion_z_score : R;
  m_motion_magnitude : R
}.

(** [np.linalg.norm(np.diff(temporal, axis=0), axis=1).mean()]. For fewer
    than two rows there is no difference to average and numpy's value is
    [nan], which [R] does not have: the statements about this value carry
    the hypothesis of two rows or more. *)
Definition motion_of (temporal : matrix) : R :=
  Np.mean (Np.norm_axis1 (Np.diff temporal)).

Definition z_score (b : baseline) (motion : R) : R :=
  (motion - mean_motion_magnitude b) / (std_motion_magnitude b + 1e-8).

Definition gt (x y : R) : bool := if Rlt_dec y x then true else false.

Section Detector.
Variable encode_video : string -> result VideoFeatures.

Definition call_encoder (video_path : string) (s : service)
    : result VideoFeatures * service :=
  (encode_video video_path,
   {| baseline_features := baseline_features s;
      encoder_calls := (encoder_calls s ++ [video_path])%list |}).

Definition detect_anomaly (video_path : string) (threshold : R) (s : service)
    : result detection * service :=
  match baseline_features s with
  | None =>
      (Raise (ValueError "Baseline not established. Call establish_baseline() first."), s)
  | Some b =>
      match call_encoder video_path s with
      | (Raise e, s') => (Raise e, s')
      | (Ok features, s') =>
          let temporal := temporal_features features in
          let temporal_variance := Np.var_axis0 temporal in
          let motion_magnitude := motion_of temporal in
          let motion_z_score := z_score b motion_magnitude in
          match Np.broadcast (fun v m => Rabs (v - m)) temporal_variance
                  (mean_temporal_variance b) with
          | Raise e => (Raise e, s')
          | Ok variance_diff =>
              match Np.broadcast (fun d sd => d / (sd + 1e-8)) variance_diff
                      (std_temporal_variance b) with
              | Raise e => (Raise e, s')
              | Ok ratios =>
                  let variance_z_score := Np.mean ratios in
                  let anomaly_score := (Rabs motion_z_score + variance_z_score) / 2 in
                  (Ok {| d_video_path := video_path;
                         is_anomaly := gt anomaly_score threshold;
                         anomaly_score := anomaly_score;
                         motion_z_score := motion_z_score;
                         variance_z_score := variance_z_score;
                         motion_magnitude := motion_magnitude;
                         threshold := threshold;
                         confidence := Rmin 100 (anomaly_score / threshold * 100) |},
                   s')
              end
          end
      end
  end.

(** The default of the [threshold] argument, and a call of
    [detect_anomaly] that gives the argument or leaves it out. *)
Definition default_threshold : R := 2.
Definition detect_anomaly_call (video_path : string) (threshold : option R)
    (s : service) : result detection * service :=
  detect_anomaly video_path
    (match threshold with Some t => t | None => default_threshold end) s.

(** The body of the loop of [detect_temporal_anomalies] for window [i]. *)
Definition window_moment (b : baseline) (temporal : matrix) (window_size i : nat)
    : list moment :=
  let window := firstn window_size (skipn i temporal) in
  let window_motion := motion_of window in
  let z := z_score b window_motion in
  if gt (Rabs z) 2
  then [ {| frame_start := i; frame_end := i + window_size;
            timestamp_start := INR i / INR (length temporal);
            timestamp_end := INR (i + window_size) / INR (length temporal);
            m_motion_z_score := z; m_motion_magnitude := window_motion |} ]
  else [].

Definition detect_temporal_anomalies (video_path : string) (window_size : nat)
    (s : service) : result (list moment) * service :=
  match baseline_features s with
  | None =>
      (Raise (ValueError "Baseline not established. Call establish_baseline() first."), s)
  | Some b =>
      match call_encoder video_path s with
      | (Raise e, s') => (Raise e, s')
      | (Ok features, s') =>
          let temporal := temporal_features features in
          let num_windows :=
            Z.to_nat (Z.of_nat (length temporal) - Z.of_nat window_size + 1) in
          (Ok (flat_map (window_moment b temporal window_size) (seq 0 num_windows)),
           s')
      end
  end.

End Detector.

(** The quantities of the specification, written out entry by entry for a
    temporal matrix [x] of [T] rows and [D] columns: [sigma n f] is
    [f 0 + ... + f (n - 1)] and [entry x t j] is [x[t][j]]. *)
Fixpoint sigma (n : nat) (f : nat -> R) : R :=
  match n with
  | O => 0
  | S k => sigma k f + f k
  end.
Definition entry (x : matrix) (t j : nat) : R := nth j (nth t x []) 0.
Definition spec_rows (x : matrix) : nat := length x.
Definition spec_dims (x : matrix) : nat := length (hd [] x).

(** [m]: the mean over [t] of the L2 norm of the first difference of the
    rows. *)
Definition spec_motion_magnitude (x : matrix) : R :=
  sigma (spec_rows x - 1)
    (fun t => sqrt (sigma (spec_dims x)
                      (fun j => (entry x (S t) j - entry x t j)
                                * (entry x (S t) j - entry x t j))))
  / INR (spec_rows x - 1).

(** [v]: for dimension [j], the variance over time of column [j]. *)
Definition spec_temporal_variance (x : matrix) (j : nat) : R :=
  let mu := sigma (spec_rows x) (fun t => entry x t j) / INR (spec_rows x) in
  sigma (spec_rows x) (fun t => (entry x t j - mu) * (entry x t j - mu))
  / INR (spec_rows x).

Definition spec_z_motion (m mu_m sigma_m : R) : R := (m - mu_m) / (sigma_m + 1e-8).
Definition spec_z_variance (D : nat) (v : nat -> R) (mu_v sigma_v : vector) : R :=
  sigma D (fun j => Rabs (v j - nth j mu_v 0) / (nth j sigma_v 0 + 1e-8)) / INR D.
Definition spec_anomaly_score (z_motion z_variance : R) : R :=
  (Rabs z_motion + z_variance) / 2.

(** A detector fresh from its constructor, and one with a baseline over
    one-dimensional embeddings. *)
Definition fresh : service := {| baseline_features := None; encoder_calls := [] |}.
Definition with_baseline : service :=
  {| baseline_features :=
       Some {| mean_temporal_variance := [0]; std_temporal_variance := [1];
               mean_motion_magnitude := 1; std_motion_magnitude := 1;
               num_videos := 10 |};
     encoder_calls := [] |}.
Definition walking : VideoFeatures :=
  {| video_id := "walk"; global_features := [1];
     temporal_features := [[0]; [1]; [2]]; metadata := ∅; created_at := 0 |}.
Definition encoder_walking (path : string) : result VideoFeatures := Ok walking.
(** A video that moves five times as fast as the baseline's mean. *)
Definition biking : VideoFeatures :=
  {| video_id := "bike"; global_features := [1];
     temporal_features := [[0]; [5]]; metadata := ∅; created_at := 0 |}.
Definition encoder_biking (path : string) : result VideoFeatures := Ok biking.

End Anomaly.

(** ** Further inputs and notions for the properties of the services *)
Module TaskInputs.
Import Tasks.

(** The file named by the request is not there. *)
Definition env_missing_file : attempt_env :=
  {| http_download := Ok "./temp/downloads/v1.mp4"; path_exists := false;
     encode_video := Ok sample_features; get_video_duration := 2%R;
     insert_video := Ok true; np_save := Ok tt; getsize := Ok None;
     os_remove := Ok tt; time_time := 0%R; db_processing_ok := true; db_metadata_ok := true;
     db_completed_ok := true; db_failed_ok := true |}.

End TaskInputs.

(** ** workers/tasks.py: [batch_index_task] *)
Module Batch.
Local Open Scope Z_scope.

(** The dictionary returned by [batch_index_task]. *)
Record batch_result := {
  br_status : string;
  br_completed : Z;
  br_failed : Z
}.

(** The monitoring loop: [result.get(timeout=600)] returns for a task that
    succeeded and raises for one that failed or timed out; the counters are
    written to the job after every task. *)
Fixpoint monitor (now : Q) (jobs : gmap string Postgres.IndexingJob)
    (job_id : string) (results : list (result Tasks.task_result))
    (completed failed : Z) : gmap string Postgres.IndexingJob * Z * Z :=
  match results with
  | [] => (jobs, completed, failed)
  | r :: rest =>
      let '(completed, failed) :=
        match r with
        | Ok _ => (completed + 1, failed)
        | Raise _ => (completed, failed + 1)
        end in
      monitor now
        (Postgres.update_job_progress now jobs job_id completed failed None None)
        job_id rest completed failed
  end.

(** [batch_index_task] for a batch whose tasks end with [results].
    [dispatch] is the outcome of handing the submissions to the broker with
    [index_video_task.delay]; the database calls commit. *)
Definition batch_index_task (now : Q) (jobs : gmap string Postgres.IndexingJob)
    (job_id : string) (dispatch : result unit)
    (results : list (result Tasks.task_result))
    : result batch_result * gmap string Postgres.IndexingJob :=
  let total := Z.of_nat (length results) in
  let jobs := Postgres.create_indexing_job jobs job_id total in
  match dispatch with
  | Ok _ =>
      let '(jobs, completed, failed) := monitor now jobs job_id results 0 0 in
      let status := if failed =? 0 then "completed" else "completed_with_errors" in
      (Ok {| br_status := status; br_completed := completed; br_failed := failed |},
       Postgres.update_job_progress now jobs job_id completed failed (Some status) None)
  | Raise e =>
      (Raise e,
       Postgres.update_job_progress now jobs job_id 0 total (Some "failed")
         (Some (str e)))
  end.

Definition succeeded (r : result Tasks.task_result) : bool :=
  match r with Ok _ => true | Raise _ => false end.
Definition count_succeeded (results : list (result Tasks.task_result)) : Z :=
  Z.of_nat (length (List.filter succeeded results)).
Definition count_failed (results : list (result Tasks.task_result)) : Z :=
  Z.of_nat (length (List.filter (fun r => negb (succeeded r)) results)).

(** A batch of three videos of which the second fails. *)
Definition three_results : list (result Tasks.task_result) :=
  [ Ok {| Tasks.tr_video_id := "a"; Tasks.tr_status := Tasks.completed;
          Tasks.tr_duration := 1%R |};
    Raise (Exception decode_error "not a parseable video");
    Ok {| Tasks.tr_video_id := "c"; Tasks.tr_status := Tasks.completed;
          Tasks.tr_duration := 1%R |} ].

End Batch.

(** ** Notions used to state the properties of the search service *)
Module SearchNotions.
Import Search.
Local Open Scope R_scope.

(** [a] may stand before [b] in a list sorted by decreasing score. *)
Definition by_decreasing_score (a b : SearchResult) : Prop :=
  similarity_score b <= similarity_score a.

(** The results of a list that carry the score [v], in the order of the
    list; and what it is for [sorted] to be the list [l] after a stable sort
    by decreasing score: the same results, in decreasing order, those of
    equal score in the order they had in [l]. *)
Definition of_score (v : R) (l : list SearchResult) : list SearchResult :=
  List.filter (fun r => if Req_dec_T (similarity_score r) v then true else false) l.
Definition stable_sort_of (l sorted : list SearchResult) : Prop :=
  sorted ≡ₚ l /\
  StronglySorted by_decreasing_score sorted /\
  forall v, of_score v sorted = of_score v l.

(** What the threads of a system may still spend on the encoder. *)
Fixpoint budget_sum (l : list pc) : nat :=
  match l with
  | [] => 0
  | p :: l' => budget p + budget_sum l'
  end.

(** A process that starts on a disk cache left by an earlier one; a cache
    file that cannot be read; an encoder that cannot decode. *)
Definition disk_only : shared :=
  {| query_cache := ∅; disk_cache := {[ "q.mp4" := Valid query_features ]};
     encoder_calls := [] |}.
Definition corrupted : shared :=
  {| query_cache := ∅; disk_cache := {[ "q.mp4" := Corrupt ]};
     encoder_calls := [] |}.
Definition encoder_fails (path : string) : result VideoFeatures :=
  Raise (Exception decode_error "not a parseable video").

(** The response to [request_top_k_zero]. *)
Definition response_top_k_zero : SearchResponse :=
  {| results := []; total_results := 0 |}.

(** A third indexed video, with the temporal step and the index score of
    ["v1"], and the temporal files of the three videos. *)
Definition candidate_twin : SearchResult :=
  {| sr_video_id := "v3"; similarity_score := 1; distance := 0;
     video_path := "/data/v3.mp4"; sr_metadata := ∅ |}.
Definition files_three : gmap string matrix :=
  {[ temporal_path "./storage" "v1" := [[1]];
     temporal_path "./storage" "v2" := [[-9]];
     temporal_path "./storage" "v3" := [[1]] ]}.

(** A vector index that returns two videos, and requests for one result,
    for all but the last result, and for five results re-ranked. *)
Definition two_candidates (q : vector) (k : nat) (f : option SearchFilters)
    : result (list SearchResult) :=
  Ok [candidate_same; candidate_opposite].
Definition request_top_one : SearchRequest :=
  {| query_video_url := "q.mp4"; top_k := 1; filters := None; options := None |}.
Definition request_drop_last : SearchRequest :=
  {| query_video_url := "q.mp4"; top_k := -1; filters := None; options := None |}.
Definition response_top_one : SearchResponse :=
  {| results := [candidate_same]; total_results := 1 |}.
Definition request_reranked : SearchRequest :=
  {| query_video_url := "q.mp4"; top_k := 5; filters := None;
     options := Some {| enable_reranking := true;
                        include_temporal_analysis := false |} |}.
Definition response_reranked : SearchResponse :=
  let reranked :=
    _rerank_results Np.dtw "./storage" files_opposite
      (temporal_features query_features)
      [candidate_same; candidate_opposite] 5 in
  {| results := reranked; total_results := length reranked |}.

End SearchNotions.

(** ** services/anomaly_detection.py: [establish_baseline] *)
Module Baseline.
Import Anomaly.
Local Open Scope R_scope.

(** [np.std(v)] and [np.std(m, axis=0)] *)
Definition std (v : vector) : R := sqrt (Np.var v).
Definition std_axis0 (m : matrix) : vector :=
  map (fun j => std (Np.column m j)) (seq 0 (Np.ncols m)).

(** The 2-D array numpy builds from a list of 1-D arrays; arrays of
    different lengths do not stack. *)
Definition stack (rows : list vector) : result matrix :=
  if forallb (fun r => Nat.eqb (length r) (Np.ncols rows)) rows
  then Ok rows
  else Raise (ValueError "inhomogeneous shape").

(** A temporal matrix with at least two time steps and one dimension, and a
    baseline over at least one dimension: with these no mean is taken over
    an empty array. *)
Definition well_shaped (temporal : matrix) : Prop :=
  (2 <= length temporal)%nat /\ (1 <= Np.ncols temporal)%nat.
Definition nonempty_baseline (b : baseline) : Prop :=
  mean_temporal_variance b <> [] /\ std_temporal_variance b <> [].

Section Establish.
Variable encode_video : string -> result VideoFeatures.

(** The loop of [establish_baseline]: the three lists
    [all_temporal_variances], [all_motion_magnitudes] and
    [all_temporal_features], in the order of the videos; a video whose
    encoding raises is logged and skipped. *)
Fixpoint gather (normal_videos : list string)
    : list vector * list R * list matrix :=
  match normal_videos with
  | [] => ([], [], [])
  | video_path :: rest =>
      let '(variances, magnitudes, features) := gather rest in
      match encode_video video_path with
      | Ok f =>
          let temporal := temporal_features f in
          (Np.var_axis0 temporal :: variances,
           motion_of temporal :: magnitudes,
           temporal :: features)
      | Raise _ => (variances, magnitudes, features)
      end
  end.

Definition establish_baseline (normal_videos : list string) (s : service)
    : result baseline * service :=
  let called :=
    {| baseline_features := baseline_features s;
       encoder_calls := (encoder_calls s ++ normal_videos)%list |} in
  let '(variances, magnitudes, features) := gather normal_videos in
  match features with
  | [] => (Raise (ValueError "No valid videos processed for baseline"), called)
  | _ :: _ =>
      match stack variances with
      | Raise e => (Raise e, called)
      | Ok m =>
          let b := {| mean_temporal_variance := Np.mean_axis0 m;
                      std_temporal_variance := std_axis0 m;
                      mean_motion_magnitude := Np.mean magnitudes;
                      std_motion_magnitude := std magnitudes;
                      num_videos := length features |} in
          (Ok b, {| baseline_features := Some b;
                    encoder_calls := encoder_calls called |})
      end
  end.

End Establish.

(** The videos of a list that the encoder accepts. *)
Definition encodable (encode_video : string -> result VideoFeatures)
    (path : string) : bool :=
  match encode_video path with Ok _ => true | Raise _ => false end.

(** An encoder that accepts nothing. *)
Definition encoder_fails_all (path : string) : result VideoFeatures :=
  Raise (Exception decode_error "not a parseable video").

(** An encoder that accepts only ["walk.mp4"]. *)
Definition encoder_walk_only (path : string) : result VideoFeatures :=
  if String.eqb path "walk.mp4" then Ok walking
  else Raise (Exception decode_error "not a parseable video").

(** The baseline that [walking] alone establishes. *)
Definition walking_baseline : baseline :=
  {| mean_temporal_variance :=
       Np.mean_axis0 [Np.var_axis0 (temporal_features walking)];
     std_temporal_variance :=
       std_axis0 [Np.var_axis0 (temporal_features walking)];
     mean_motion_magnitude := Np.mean [motion_of (temporal_features walking)];
     std_motion_magnitude := std [motion_of (temporal_features walking)];
     num_videos := 1 |}.

End Baseline.

(** * Theorems *)

Module TasksFacts.
Import Tasks.

(** tasks.py does not bind [config]. *)
Lemma config_is_not_bound : global_name "config" = raise (NameError "config").
Proof. vm_compute. reflexivity. Qed.

(** What [update_indexing_status] and [emit] change. *)
Lemma status_update_returns (db_ok : bool) (vid : string) (s : status)
    (err : option string) (w : world) :
  fst (update_indexing_status db_ok vid s err w) = Ok tt.
Proof. unfold update_indexing_status, bind, emit, set_videos, ret. destruct db_ok; reflexivity. Qed.

Lemma status_update_frame (db_ok : bool) (vid : string) (s : status)
    (err : option string) (w : world) :
  let w' := snd (update_indexing_status db_ok vid s err w) in
  vector_db w' = vector_db w /\
  temporal_files w' = temporal_files w /\
  calls w' = (calls w ++ [EvStatus vid s])%list /\
  (forall other, other <> vid -> videos w' !! other = videos w !! other).
Proof.
  unfold update_indexing_status, bind, emit, set_videos, ret.
  destruct db_ok; cbn; repeat split; try reflexivity;
    intros other Hne; rewrite ?lookup_insert_ne by congruence; reflexivity.
Qed.

Lemma failed_update_row (vid : string) (err : option string) (w : world) :
  exists row,
    videos (snd (update_indexing_status true vid failed err w)) !! vid = Some row /\
    v_status row = failed /\ error_message row = err.
Proof.
  unfold update_indexing_status, bind, emit, set_videos, ret. cbn.
  rewrite lookup_insert_eq. eexists. split; [reflexivity |].
  destruct (videos w !! vid); cbn; auto.
Qed.

Lemma emit_frame (e : event) (w : world) :
  let w' := snd (emit e w) in
  vector_db w' = vector_db w /\ temporal_files w' = temporal_files w /\
  videos w' = videos w /\ calls w' = (calls w ++ [e])%list.
Proof. cbn. auto. Qed.

(** The [try] block never returns: it ends in [body_exception], having
    written the status [processing] and nothing else. *)
Lemma try_block_raises (storage : string) (env : attempt_env)
    (vid url : string) (md : option task_metadata) (w : world) :
  index_video_body storage env vid url md w
  = (Raise (body_exception env url),
     snd (update_indexing_status (db_processing_ok env) vid processing None w)).
Proof.
  unfold index_video_body, download_video, body_exception.
  rewrite config_is_not_bound.
  cbv beta iota zeta delta
    [bind ret raise external update_indexing_status emit set_videos fst snd].
  destruct (db_processing_ok env), (is_remote url), (path_exists env);
    reflexivity.
Qed.

Lemma body_exception_cases (env : attempt_env) (url : string) :
  body_exception env url = NameError "config" \/
  body_exception env url = ValueError ("Video file not found: " ++ url).
Proof.
  unfold body_exception. destruct (is_remote url), (path_exists env); auto.
Qed.

(** One execution of the task, with [k] retries behind it. *)
Lemma execution_outcome (storage : string) (env : attempt_env) (k : nat)
    (vid url : string) (md : option task_metadata) (w : world) :
  let e := body_exception env url in
  let w1 := snd (update_indexing_status (db_processing_ok env) vid processing
                   None w) in
  let w2 := snd (update_indexing_status (db_failed_ok env) vid failed
                   (Some (str e)) w1) in
  index_video_task storage env k vid url md w
  = if (k <? max_retries)%nat
    then (Raise (Retry (60 * 2 ^ k)), snd (emit (EvRetry (60 * 2 ^ k)) w2))
    else (Raise e, w2).
Proof.
  intros e w1 w2. subst e w1 w2.
  unfold index_video_task, try_except. rewrite try_block_raises.
  assert (Hk : (max_retries <? k + 1)%nat = negb (k <? max_retries)%nat).
  { destruct (Nat.ltb_spec max_retries (k + 1)), (Nat.ltb_spec k max_retries);
      simpl; try reflexivity; lia. }
  set (w1 := snd (update_indexing_status (db_processing_ok env) vid processing
                    None w)).
  destruct (body_exception_cases env url) as [He|He]; rewrite He;
    unfold bind, retry; rewrite Hk;
    pose proof (status_update_returns (db_failed_ok env) vid failed
                  (Some (str (body_exception env url))) w1) as Hret;
    rewrite He in Hret;
    destruct (update_indexing_status (db_failed_ok env) vid failed _ w1)
      as [r w2]; cbn [fst snd] in *; subst r;
    destruct (k <? max_retries)%nat; reflexivity.
Qed.

(** An execution writes neither store, and logs the two status changes and
    the retry it asks for. *)
Lemma execution_frame (storage : string) (env : attempt_env) (k : nat)
    (vid url : string) (md : option task_metadata) (w : world) :
  let rw := index_video_task storage env k vid url md w in
  vector_db (snd rw) = vector_db w /\
  temporal_files (snd rw) = temporal_files w /\
  calls (snd rw)
    = (calls w ++ [EvStatus vid processing; EvStatus vid failed]
         ++ (if (k <? max_retries)%nat then [EvRetry (60 * 2 ^ k)] else []))%list /\
  (forall other, other <> vid -> videos (snd rw) !! other = videos w !! other).
Proof.
  intros rw. subst rw. rewrite execution_outcome.
  set (e := body_exception env url).
  pose proof (status_update_frame (db_processing_ok env) vid processing None w)
    as (Hv1 & Ht1 & Hc1 & Ho1).
  set (w1 := snd (update_indexing_status (db_processing_ok env) vid processing
                    None w)) in *.
  pose proof (status_update_frame (db_failed_ok env) vid failed (Some (str e)) w1)
    as (Hv2 & Ht2 & Hc2 & Ho2).
  set (w2 := snd (update_indexing_status (db_failed_ok env) vid failed
                    (Some (str e)) w1)) in *.
  destruct (k <? max_retries)%nat; cbn [fst snd emit vector_db temporal_files
                                         calls videos];
    rewrite ?Hv2, ?Ht2, ?Hc2, ?Hv1, ?Ht1, ?Hc1, <- ?app_assoc;
    repeat split; try reflexivity;
    intros other Hne; rewrite Ho2, Ho1 by exact Hne; reflexivity.
Qed.

Lemma execution_row (storage : string) (env : attempt_env) (k : nat)
    (vid url : string) (md : option task_metadata) (w : world) :
  db_failed_ok env = true ->
  exists row,
    videos (snd (index_video_task storage env k vid url md w)) !! vid = Some row /\
    v_status row = failed /\
    error_message row = Some (str (body_exception env url)).
Proof.
  intros Hdb. rewrite execution_outcome, Hdb.
  set (w1 := snd (update_indexing_status (db_processing_ok env) vid processing
                    None w)).
  destruct (failed_update_row vid (Some (str (body_exception env url))) w1)
    as (row & Hrow & Hs & He).
  exists row. destruct (k <? max_retries)%nat; cbn [fst snd emit videos];
    auto.
Qed.

Lemma execution_result (storage : string) (env : attempt_env) (k : nat)
    (vid url : string) (md : option task_metadata) (w : world) :
  fst (index_video_task storage env k vid url md w)
  = Raise (if (k <? max_retries)%nat then Retry (60 * 2 ^ k)
           else body_exception env url).
Proof. rewrite execution_outcome. destruct (k <? max_retries)%nat; reflexivity. Qed.

(** The worker runs the task four times. *)
Lemma run_attempts_retry (storage : string) (envs : nat -> attempt_env)
    (vid url : string) (md : option task_metadata) (fuel k : nat) (w : world) :
  (k < max_retries)%nat ->
  run_attempts storage (Datatypes.S fuel) envs k vid url md w
  = run_attempts storage fuel envs (Datatypes.S k) vid url md
      (snd (index_video_task storage (envs k) k vid url md w)).
Proof.
  intros Hk. cbn [run_attempts].
  pose proof (execution_result storage (envs k) k vid url md w) as Hr.
  destruct (index_video_task storage (envs k) k vid url md w) as [r w'].
  cbn [fst snd] in *.
  destruct (Nat.ltb_spec k max_retries); [| lia]. subst r. reflexivity.
Qed.

Lemma run_attempts_last (storage : string) (envs : nat -> attempt_env)
    (vid url : string) (md : option task_metadata) (fuel : nat) (w : world) :
  run_attempts storage fuel envs max_retries vid url md w
  = index_video_task storage (envs max_retries) max_retries vid url md w.
Proof.
  pose proof (execution_result storage (envs max_retries) max_retries vid url
                md w) as Hr.
  destruct fuel; cbn [run_attempts];
    destruct (index_video_task storage (envs max_retries) max_retries vid url
                md w) as [r w'];
    cbn [fst snd] in *; subst r; cbn [Nat.ltb Nat.leb max_retries];
    destruct (body_exception_cases (envs max_retries) url) as [He|He];
    rewrite He; reflexivity.
Qed.

Lemma run_task_unfolds (storage : string) (envs : nat -> attempt_env)
    (vid url : string) (md : option task_metadata) (w : world) :
  let w1 := snd (index_video_task storage (envs 0%nat) 0 vid url md w) in
  let w2 := snd (index_video_task storage (envs 1%nat) 1 vid url md w1) in
  let w3 := snd (index_video_task storage (envs 2%nat) 2 vid url md w2) in
  run_task storage envs vid url md w
  = index_video_task storage (envs 3%nat) 3 vid url md w3.
Proof.
  intros w1 w2 w3. subst w1 w2 w3. unfold run_task.
  change max_retries with 3%nat at 1.
  rewrite !run_attempts_retry by (unfold max_retries; lia).
  apply (run_attempts_last storage envs vid url md 0).
Qed.



(** C2. No execution of [index_video_task] makes any of the three store
    calls of the commit: every one fails before the encoder and logs only
    status changes and a retry, so that no video is ever committed in the
    order of the claim, temporal matrix, vector, metadata row. *)
Theorem no_execution_reaches_the_commit (storage : string) (env : attempt_env)
    (k : nat) (vid url : string) (md : option task_metadata) (w : world) :
  let rw := index_video_task storage env k vid url md w in
  (exists e, fst rw = Raise e) /\
  exists evs : list event,
    calls (snd rw) = (calls w ++ evs)%list /\
    commit_events evs = [] /\
    commit_events evs <> order_temporal_first vid.
Proof.
  intros rw. subst rw. split.
  - rewrite execution_result. eexists. reflexivity.
  - destruct (execution_frame storage env k vid url md w) as (_ & _ & Hc & _).
    eexists. split; [exact Hc |].
    destruct (k <? max_retries)%nat; cbn; split; (reflexivity || discriminate).
Qed.

(** The request of an existing, decodable file, every collaborator ready:
    the execution ends in a retry of the [NameError]. *)
Lemma existing_file_is_not_indexed :
  let rw := index_video_task "./storage" env_ok 0 "v1" "/data/v1.mp4" None
              empty_world in
  fst rw = Raise (Retry 60) /\
  calls (snd rw) = [EvStatus "v1" processing; EvStatus "v1" failed; EvRetry 60] /\
  error_message <$> (videos (snd rw) !! "v1")
    = Some (Some "name 'config' is not defined").
Proof. vm_compute. auto. Qed.

(** One execution schedules at most one retry, and only together with the
    [Retry] it ends in. *)
Lemma attempt_retry_shape (storage : string) (env : attempt_env) (k : nat)
    (vid url : string) (md : option task_metadata) (w : world) :
  let rw := index_video_task storage env k vid url md w in
  exists evs : list event,
    calls (snd rw) = (calls w ++ evs)%list /\
    ((retry_countdowns evs = [60 * 2 ^ k]%nat /\ (k < max_retries)%nat) \/
     (retry_countdowns evs = [] /\
      ((k < max_retries)%nat -> forall c, fst rw <> Raise (Retry c)))).
Proof.
  intros rw. subst rw.
  destruct (execution_frame storage env k vid url md w) as (_ & _ & Hc & _).
  eexists. split; [exact Hc |].
  destruct (Nat.ltb_spec k max_retries) as [Hk|Hk]; cbn.
  - left. split; [reflexivity | exact Hk].
  - right. split; [reflexivity | intros Hlt; lia].
Qed.

(** The worker schedules at most [max_retries] retries, with countdowns 60,
    120 and 240 seconds in this order. *)
Lemma run_attempts_backoff (storage : string) (envs : nat -> attempt_env)
    (vid url : string) (md : option task_metadata) (fuel k : nat) (w : world) :
  (k + fuel = max_retries)%nat ->
  exists evs : list event,
    calls (snd (run_attempts storage fuel envs k vid url md w))
      = (calls w ++ evs)%list /\
    retry_countdowns evs `prefix_of` backoff k fuel.
Proof.
  unfold max_retries.
  revert k w. induction fuel as [|fuel IH]; intros k w Hk; cbn [run_attempts];
    pose proof (attempt_retry_shape storage (envs k) k vid url md w) as Hshape;
    cbv zeta in Hshape; unfold max_retries in Hshape;
    destruct Hshape as (evs & Hcalls & Hshape);
    destruct (index_video_task storage (envs k) k vid url md w) as [r w'];
    cbn [fst snd] in *.
  - destruct Hshape as [[_ Hlt]|[Hnone _]]; [lia |].
    exists evs. split.
    + destruct r as [res|[]]; exact Hcalls.
    + rewrite Hnone. apply prefix_nil.
  - assert (Hret : exists evs0,
               calls w' = (calls w ++ evs0)%list /\
               retry_countdowns evs0 `prefix_of` backoff k (Datatypes.S fuel)).
    { exists evs. split; [exact Hcalls |].
      destruct Hshape as [[Hone _]|[Hnone _]].
      - rewrite Hone. unfold backoff. cbn [seq List.map].
        apply prefix_cons, prefix_nil.
      - rewrite Hnone. apply prefix_nil. }
    destruct r as [res|e]; [exact Hret |].
    destruct e; try exact Hret.
    destruct Hshape as [[Hone _]|[_ Hno]]; [| exfalso; eapply Hno; [lia | reflexivity]].
    destruct (IH (Datatypes.S k) w' ltac:(lia)) as (evs' & Hcalls' & Hpre).
    exists (evs ++ evs')%list. split.
    + rewrite Hcalls', Hcalls, app_assoc. reflexivity.
    + unfold retry_countdowns in *. rewrite flat_map_app, Hone.
      unfold backoff. cbn [seq List.map app]. apply prefix_cons, Hpre.
Qed.

(** C5. Whatever the file and the environments, the worker fails four
    times and schedules the three retries, 60, 120 and 240 seconds apart,
    for an exception that is neither transient nor a decode error: the
    [NameError] of the unbound [config], or the missing file. The encoder
    is not called in any of the four executions, so that a file it could
    not decode is retried like any other; the row ends as [failed] with the
    message of that exception. *)
Theorem every_video_is_retried_three_times (storage : string)
    (envs : nat -> attempt_env) (vid url : string)
    (md : option task_metadata) (w : world) :
  let rw := run_task storage envs vid url md w in
  let e := body_exception (envs 3%nat) url in
  fst rw = Raise e /\
  (e = NameError "config" \/ e = ValueError ("Video file not found: " ++ url)) /\
  (exists evs : list event,
     calls (snd rw) = (calls w ++ evs)%list /\
     retry_countdowns evs = [60; 120; 240]%nat /\
     forall path, ~ In (EvEncode path) evs) /\
  (db_failed_ok (envs 3%nat) = true ->
   exists row, videos (snd rw) !! vid = Some row /\
     v_status row = failed /\ error_message row = Some (str e)).
Proof.
  intros rw e. subst rw e. rewrite run_task_unfolds.
  set (w1 := snd (index_video_task storage (envs 0%nat) 0 vid url md w)).
  set (w2 := snd (index_video_task storage (envs 1%nat) 1 vid url md w1)).
  set (w3 := snd (index_video_task storage (envs 2%nat) 2 vid url md w2)).
  split; [| split; [| split]].
  - rewrite execution_result. reflexivity.
  - apply body_exception_cases.
  - destruct (execution_frame storage (envs 0%nat) 0 vid url md w) as (_ & _ & H0 & _).
    destruct (execution_frame storage (envs 1%nat) 1 vid url md w1) as (_ & _ & H1 & _).
    destruct (execution_frame storage (envs 2%nat) 2 vid url md w2) as (_ & _ & H2 & _).
    destruct (execution_frame storage (envs 3%nat) 3 vid url md w3) as (_ & _ & H3 & _).
    fold w1 in H0. fold w2 in H1. fold w3 in H2.
    eexists. split.
    + rewrite H3, H2, H1, H0. cbn [Nat.ltb Nat.leb max_retries].
      rewrite <- !app_assoc. reflexivity.
    + split; [reflexivity |].
      intros path Hin. cbn in Hin.
      repeat (destruct Hin as [Hin|Hin]; [discriminate Hin |]). exact Hin.
  - intros Hdb. apply execution_row. exact Hdb.
Qed.

(** The request of a file that is there and that the encoder could not
    decode. *)
Lemma undecodable_file_is_retried :
  let rw := run_task "./storage" (fun _ => env_decode_error) "v1"
              "/data/v1.mp4" None empty_world in
  fst rw = Raise (NameError "config") /\
  retry_countdowns (calls (snd rw)) = [60; 120; 240]%nat /\
  ~ In (EvEncode "/data/v1.mp4") (calls (snd rw)).
Proof.
  split; [vm_compute; reflexivity |]. split; [vm_compute; reflexivity |].
  vm_compute. intros H. repeat (destruct H as [H|H]; [discriminate H |]). exact H.
Qed.

End TasksFacts.

Module NpFacts.
Import Np.
Local Open Scope R_scope.

Lemma sum_nonneg (v : vector) : Forall (fun x => 0 <= x) v -> 0 <= sum v.
Proof.
  unfold sum. induction 1 as [|x v Hx _ IH]; cbn; lra.
Qed.

Lemma inv_INR_nonneg (n : nat) : 0 <= / INR n.
Proof.
  destruct n as [|n].
  - cbn. rewrite Rinv_0. lra.
  - left. apply Rinv_0_lt_compat, lt_0_INR. lia.
Qed.

Lemma mean_nonneg (v : vector) : Forall (fun x => 0 <= x) v -> 0 <= mean v.
Proof.
  intros Hv. unfold mean, Rdiv.
  apply Rmult_le_pos; [apply sum_nonneg, Hv | apply inv_INR_nonneg].
Qed.

Lemma var_nonneg (v : vector) : 0 <= var v.
Proof.
  unfold var. apply mean_nonneg. apply List.Forall_forall.
  intros y Hy. apply in_map_iff in Hy as (x & <- & _).
  apply Rle_0_sqr.
Qed.

Lemma mean_var_axis0_nonneg (m : matrix) : 0 <= mean (var_axis0 m).
Proof.
  apply mean_nonneg. unfold var_axis0. apply List.Forall_forall.
  intros y Hy. apply in_map_iff in Hy as (j & <- & _). apply var_nonneg.
Qed.

Lemma inner_self_nonneg (a : vector) : 0 <= inner a a.
Proof.
  unfold inner, sum. induction a as [|x a IH]; cbn; [lra | nra].
Qed.

(** Cauchy-Schwarz, squared; arrays of different lengths are cut to the
    shorter one by [zip_with]. *)
Lemma inner_sqr_le (a b : vector) :
  inner a b * inner a b <= inner a a * inner b b.
Proof.
  revert b. induction a as [|x a IH]; intros [|y b].
  - unfold inner, sum; cbn; lra.
  - pose proof (inner_self_nonneg (y :: b)). unfold inner, sum in *; cbn in *. lra.
  - pose proof (inner_self_nonneg (x :: a)). unfold inner, sum in *; cbn in *. lra.
  - specialize (IH b).
    pose proof (inner_self_nonneg a) as Ha.
    pose proof (inner_self_nonneg b) as Hb.
    unfold inner, sum in *. cbn [zip_with fold_right].
    set (s := fold_right Rplus 0 (zip_with Rmult a b)) in *.
    set (A := fold_right Rplus 0 (zip_with Rmult a a)) in *.
    set (B := fold_right Rplus 0 (zip_with Rmult b b)) in *.
    (* 2 s x y <= A y^2 + B x^2 *)
    assert (Hmix : 2 * s * (x * y) <= A * (y * y) + B * (x * x)).
    { assert (Hrhs : 0 <= A * (y * y) + B * (x * x)).
      { pose proof (Rle_0_sqr x). pose proof (Rle_0_sqr y). unfold Rsqr in *.
        apply Rplus_le_le_0_compat; apply Rmult_le_pos; assumption. }
      apply Rsqr_incr_0_var; [| exact Hrhs]. unfold Rsqr.
      assert (H1 : (s * s) * ((x * y) * (x * y)) <= (A * B) * ((x * y) * (x * y))).
      { apply Rmult_le_compat_r; [apply Rle_0_sqr | exact IH]. }
      pose proof (Rle_0_sqr (A * (y * y) - B * (x * x))) as H2. unfold Rsqr in H2.
      lra. }
    lra.
Qed.

Lemma inner_le_norms (a b : vector) : Rabs (inner a b) <= norm a * norm b.
Proof.
  unfold norm. rewrite <- sqrt_mult by apply inner_self_nonneg.
  rewrite <- sqrt_Rsqr_abs. apply sqrt_le_1_alt. unfold Rsqr.
  apply inner_sqr_le.
Qed.

Lemma norm_nonneg (a : vector) : 0 <= norm a.
Proof. unfold norm. apply sqrt_pos. Qed.

Lemma norm_singleton (x : R) : norm [x] = Rabs x.
Proof.
  unfold norm, inner, sum. cbn. rewrite Rplus_0_r.
  rewrite <- sqrt_Rsqr_abs. reflexivity.
Qed.

Lemma mean_singleton (x : R) : mean [x] = x.
Proof. unfold mean. cbn. field. Qed.

Lemma var_singleton (x : R) : var [x] = 0.
Proof. unfold var. cbn [map]. rewrite !mean_singleton. unfold mean. cbn. field. Qed.

Lemma broadcast_same_length (f : R -> R -> R) (a b : vector) :
  length a = length b -> broadcast f a b = Ok (zip_with f a b).
Proof. intros H. unfold broadcast. rewrite H, Nat.eqb_refl. reflexivity. Qed.

(** Rows of one length have a Euclidean distance. *)
Lemma euclidean_same_length (a b : vector) :
  length a = length b -> euclidean a b = Ok (norm (zip_with Rminus a b)).
Proof. intros H. unfold euclidean. rewrite broadcast_same_length by exact H. reflexivity. Qed.

(** One-step series: the warping distance is the distance of the two steps. *)
Lemma dtw_one_step (x y : vector) (radius : nat)
    (d : vector -> vector -> result R) :
  length x = length y ->
  dtw [x] [y] radius d
  = match d x y with Ok c => Ok (c + 0) | Raise e => Raise e end.
Proof.
  intros H. unfold dtw. cbn [ncols]. rewrite H, Nat.eqb_refl. cbn.
  destruct (d x y); reflexivity.
Qed.

End NpFacts.

Module SearchFacts.
Import Search.

Local Open Scope R_scope.

Lemma in_insert_desc (x r : SearchResult) (l : list SearchResult) :
  In r (insert_desc x l) -> r = x \/ In r l.
Proof.
  induction l as [|y l IH]; cbn.
  - intros [<-|[]]. left. reflexivity.
  - destruct (Rle_dec _ _); cbn.
    + intros [<-|[<-|H]]; auto.
    + intros [<-|H]; [auto |]. destruct (IH H); auto.
Qed.

Lemma in_sort_desc (r : SearchResult) (l : list SearchResult) :
  In r (sort_desc l) -> In r l.
Proof.
  induction l as [|x l IH]; cbn; [auto |].
  intros H. apply in_insert_desc in H as [->|H]; auto.
Qed.

Lemma in_firstn (r : SearchResult) (n : nat) (l : list SearchResult) :
  In r (firstn n l) -> In r l.
Proof.
  revert l. induction n as [|n IH]; intros [|x l]; cbn; try tauto.
  intros [->|H]; [left; reflexivity | right; apply IH, H].
Qed.

Lemma in_slice_to (r : SearchResult) (l : list SearchResult) (k : Z) :
  In r (slice_to l k) -> In r l.
Proof.
  unfold slice_to. destruct (k <? 0)%Z; apply in_firstn.
Qed.

(** Every result of [_rerank_results] is one of the candidates, rescored. *)
Lemma rerank_results_are_rescored
    (fastdtw : matrix -> matrix -> nat -> (vector -> vector -> result R) -> result R)
    (storage : string) (files : gmap string matrix) (Q : matrix)
    (candidates : list SearchResult) (k : Z) (r : SearchResult) :
  In r (_rerank_results fastdtw storage files Q candidates k) ->
  exists c, In c candidates /\ r = rerank_candidate fastdtw storage files Q c.
Proof.
  unfold _rerank_results. intros H.
  apply in_slice_to, in_sort_desc, in_map_iff in H as (c & <- & Hc). eauto.
Qed.

Lemma length_mean_axis0 (m : matrix) : length (Np.mean_axis0 m) = Np.ncols m.
Proof. unfold Np.mean_axis0. rewrite length_map, length_seq. reflexivity. Qed.

Lemma ratio_bounds_eps (n D e : R) :
  0 < e -> Rabs n <= D -> -1 <= n / (D + e) <= 1.
Proof.
  intros He Hn.
  assert (HD : 0 <= D) by (pose proof (Rabs_pos n); lra).
  assert (Hpos : 0 < D + e) by lra.
  pose proof (Rinv_0_lt_compat _ Hpos) as Ht.
  assert (Hone : (D + e) * / (D + e) = 1) by (apply Rinv_r; lra).
  unfold Rdiv. set (t := / (D + e)) in *.
  assert (Hle : n <= D) by (pose proof (Rle_abs n); lra).
  assert (Hge : - D <= n).
  { pose proof (Rle_abs (- n)) as H1. rewrite Rabs_Ropp in H1. lra. }
  assert (H1 : 0 <= (D - n) * t) by (apply Rmult_le_pos; lra).
  assert (H2 : 0 <= (D + n) * t) by (apply Rmult_le_pos; lra).
  assert (H3 : 0 <= e * t) by (apply Rmult_le_pos; lra).
  split; lra.
Qed.

Lemma ratio_bounds (n D : R) : Rabs n <= D -> -1 <= n / (D + 1e-8) <= 1.
Proof. apply ratio_bounds_eps. lra. Qed.

Lemma dtw_similarity_bounds
    (fastdtw : matrix -> matrix -> nat -> (vector -> vector -> result R) -> result R)
    (Q C : matrix) :
  (forall d, fastdtw Q C 10%nat Np.euclidean = Ok d -> 0 <= d) ->
  0 <= dtw_similarity (_compute_dtw_distance fastdtw Q C) <= 1.
Proof.
  intros Hd. unfold _compute_dtw_distance, dtw_similarity.
  destruct (fastdtw Q C 10%nat Np.euclidean) as [d|e]; [| lra].
  specialize (Hd d eq_refl).
  assert (Hpos : 0 < 1 + d) by lra.
  pose proof (Rinv_0_lt_compat _ Hpos) as Ht.
  assert (Hone : (1 + d) * / (1 + d) = 1) by (apply Rinv_r; lra).
  unfold Rdiv. set (t := / (1 + d)) in *.
  assert (H1 : 0 <= d * t) by (apply Rmult_le_pos; lra).
  split; lra.
Qed.

Lemma cosine_sim_bounds (Q C : matrix) (s_cos : R) :
  cosine_sim Q C = Ok s_cos -> -1 <= s_cos <= 1.
Proof.
  unfold cosine_sim, Np.dot.
  destruct (Nat.eqb _ _); [| discriminate].
  intros [= <-]. apply ratio_bounds, NpFacts.inner_le_norms.
Qed.

Lemma var_similarity_bounds (Q C : matrix) : 0 <= var_similarity Q C <= 1.
Proof.
  unfold var_similarity.
  pose proof (NpFacts.mean_var_axis0_nonneg Q) as Hq.
  pose proof (NpFacts.mean_var_axis0_nonneg C) as Hc.
  set (vq := Np.mean (Np.var_axis0 Q)) in *.
  set (vc := Np.mean (Np.var_axis0 C)) in *.
  assert (Habs : 0 <= Rabs (vq - vc) <= vq + vc).
  { split; [apply Rabs_pos |]. unfold Rabs. destruct (Rcase_abs _); lra. }
  assert (Hr : -1 <= Rabs (vq - vc) / (vq + vc + 1e-8) <= 1).
  { apply ratio_bounds_eps; [lra |]. rewrite Rabs_Rabsolu. lra. }
  assert (Hp : 0 <= Rabs (vq - vc) / (vq + vc + 1e-8)).
  { apply Rmult_le_pos; [lra |]. left. apply Rinv_0_lt_compat. lra. }
  lra.
Qed.

Lemma rerank_candidate_bounded
    (fastdtw : matrix -> matrix -> nat -> (vector -> vector -> result R) -> result R)
    (storage : string) (files : gmap string matrix) (Q : matrix) (c : SearchResult) :
  0 <= similarity_score c <= 1 ->
  (forall C d, files !! temporal_path storage (sr_video_id c) = Some C ->
               fastdtw Q C 10%nat Np.euclidean = Ok d -> 0 <= d) ->
  -0.21 <= similarity_score (rerank_candidate fastdtw storage files Q c) <= 1.
Proof.
  intros Hg Hd. unfold rerank_candidate.
  destruct (files !! _) as [C|] eqn:HC; [| lra].
  destruct (cosine_sim Q C) as [s_cos|e] eqn:Hcos; [| lra].
  pose proof (dtw_similarity_bounds fastdtw Q C (fun d => Hd C d eq_refl)) as Hdtw.
  pose proof (cosine_sim_bounds Q C s_cos Hcos) as Hc.
  pose proof (var_similarity_bounds Q C) as Hv.
  cbn [similarity_score with_score]. unfold combined_score, temporal_score. lra.
Qed.

Lemma mean_axis0_one_step (x : R) : Np.mean_axis0 [[x]] = [x].
Proof. unfold Np.mean_axis0. cbn. rewrite NpFacts.mean_singleton. reflexivity. Qed.

Lemma var_axis0_one_step (x : R) : Np.var_axis0 [[x]] = [0].
Proof. unfold Np.var_axis0. cbn. rewrite NpFacts.var_singleton. reflexivity. Qed.

Lemma var_similarity_one_step (x y : R) : var_similarity [[x]] [[y]] = 1.
Proof.
  unfold var_similarity. rewrite !var_axis0_one_step, NpFacts.mean_singleton.
  replace (0 - 0) with 0 by lra. rewrite Rabs_R0. field.
Qed.

Lemma dtw_distance_one_step (x y : R) :
  _compute_dtw_distance Np.dtw [[x]] [[y]] = Np.Finite (Rabs (x - y)).
Proof.
  unfold _compute_dtw_distance. rewrite NpFacts.dtw_one_step by reflexivity.
  rewrite NpFacts.euclidean_same_length by reflexivity. cbn [zip_with].
  rewrite NpFacts.norm_singleton, Rplus_0_r. reflexivity.
Qed.

(** Series whose rows have different lengths have no warping distance. *)
Lemma dtw_distance_wider (x y z : R) :
  _compute_dtw_distance Np.dtw [[x]] [[y; z]] = Np.Inf.
Proof. reflexivity. Qed.

(** The score given to a candidate when the query and the candidate have one
    temporal step of one dimension, with exact time warping for [fastdtw]. *)
Lemma one_step_score (storage : string) (files : gmap string matrix)
    (c : SearchResult) (x y : R) :
  files !! temporal_path storage (sr_video_id c) = Some [[y]] ->
  similarity_score (rerank_candidate Np.dtw storage files [[x]] c)
  = 0.7 * (0.5 * (1 / (1 + Rabs (x - y)))
           + 0.3 * (x * y / (Rabs x * Rabs y + 1e-8))
           + 0.2 * 1)
    + 0.3 * similarity_score c.
Proof.
  intros Hf. unfold rerank_candidate. unfold matrix, vector in *. rewrite Hf.
  unfold cosine_sim. rewrite !mean_axis0_one_step.
  unfold Np.dot. cbn [length Nat.eqb].
  cbn [similarity_score with_score]. unfold combined_score, temporal_score.
  rewrite var_similarity_one_step, dtw_distance_one_step.
  unfold dtw_similarity.
  rewrite !NpFacts.norm_singleton.
  unfold Np.inner, Np.sum. cbn [zip_with fold_right].
  rewrite !Rplus_0_r. reflexivity.
Qed.

(** C3 (as amended). For a candidate whose temporal matrix is on file and
    has as many columns as the query's, the final score is
    [0.7 * s_temp + 0.3 * s_global] with
    [s_temp = 0.5 * s_dtw + 0.3 * s_cos + 0.2 * s_var], where [s_dtw] is
    [1 / (1 + d)] for the distance [d] of [fastdtw] with radius 10 and the
    Euclidean row distance (and 0 when [fastdtw] fails), [s_cos] is the inner
    product of the two row-means over the product of their norms plus
    [1e-8], and [s_var] compares the mean per-dimension variances. A
    candidate whose matrix has another number of columns is left as the
    vector index returned it. *)
Theorem rerank_score_formula
    (fastdtw : matrix -> matrix -> nat -> (vector -> vector -> result R) -> result R)
    (storage : string) (files : gmap string matrix) (Q C : matrix)
    (c : SearchResult) :
  files !! temporal_path storage (sr_video_id c) = Some C ->
  let s_dtw := match fastdtw Q C 10%nat Np.euclidean with
               | Ok d => 1 / (1 + d)
               | Raise _ => 0
               end in
  let q_avg := Np.mean_axis0 Q in
  let c_avg := Np.mean_axis0 C in
  let s_cos := Np.inner q_avg c_avg / (Np.norm q_avg * Np.norm c_avg + 1e-8) in
  let v_q := Np.mean (Np.var_axis0 Q) in
  let v_c := Np.mean (Np.var_axis0 C) in
  let s_var := 1 - Rabs (v_q - v_c) / (v_q + v_c + 1e-8) in
  (Np.ncols Q = Np.ncols C ->
   similarity_score (rerank_candidate fastdtw storage files Q c)
   = 0.7 * (0.5 * s_dtw + 0.3 * s_cos + 0.2 * s_var)
     + 0.3 * similarity_score c) /\
  (Np.ncols Q <> Np.ncols C ->
   rerank_candidate fastdtw storage files Q c = c).
Proof.
  intros Hf. cbv zeta. unfold rerank_candidate. rewrite Hf.
  unfold cosine_sim, Np.dot. rewrite !length_mean_axis0. split.
  - intros Hcols. rewrite Hcols, Nat.eqb_refl.
    cbn [similarity_score with_score].
    unfold combined_score, temporal_score, var_similarity, _compute_dtw_distance,
      dtw_similarity.
    destruct (fastdtw Q C 10%nat Np.euclidean); reflexivity.
  - intros Hcols. apply Nat.eqb_neq in Hcols. rewrite Hcols. reflexivity.
Qed.

Lemma rerank_score_formula_witness :
  ((Np.ncols [[0.0001]] = Np.ncols [[0.0001]] ->
    similarity_score (rerank_candidate Np.dtw "./storage" files_faint [[0.0001]]
                        candidate_same)
    = 0.7 * (0.5 * match Np.dtw [[0.0001]] [[0.0001]] 10%nat Np.euclidean with
                   | Ok d => 1 / (1 + d)
                   | Raise _ => 0
                   end
             + 0.3 * (Np.inner (Np.mean_axis0 [[0.0001]]) (Np.mean_axis0 [[0.0001]])
                      / (Np.norm (Np.mean_axis0 [[0.0001]])
                         * Np.norm (Np.mean_axis0 [[0.0001]]) + 1e-8))
             + 0.2 * (1 - Rabs (Np.mean (Np.var_axis0 [[0.0001]])
                                - Np.mean (Np.var_axis0 [[0.0001]]))
                          / (Np.mean (Np.var_axis0 [[0.0001]])
                             + Np.mean (Np.var_axis0 [[0.0001]]) + 1e-8)))
      + 0.3 * similarity_score candidate_same) /\
   (Np.ncols [[0.0001]] <> Np.ncols [[0.0001]] ->
    rerank_candidate Np.dtw "./storage" files_faint [[0.0001]] candidate_same
    = candidate_same)) /\
  rerank_candidate Np.dtw "./storage" files_wider [[1]] candidate_same
  = candidate_same.
Proof.
  split.
  - apply (rerank_score_formula Np.dtw "./storage" files_faint [[0.0001]]
             [[0.0001]] candidate_same).
    vm_compute. reflexivity.
  - apply (rerank_score_formula Np.dtw "./storage" files_wider [[1]] [[1; 0]]
             candidate_same).
    + vm_compute. reflexivity.
    + cbn. discriminate.
Defined.

(** C3, the claim as stated fails. For a query and a candidate whose only
    temporal step is [0.0001] in one dimension the cosine of the row-means
    is 1, while the code divides their product [1e-8] by [1e-8 + 1e-8]: its
    score is more than 0.1 below the claimed one. And a candidate whose
    matrix has one column more than the query's keeps its index score 1,
    which the claimed formula cannot give with any value of the cosine. *)
Lemma rerank_score_is_not_the_cosine_formula :
  similarity_score (rerank_candidate Np.dtw "./storage" files_faint [[0.0001]]
                      candidate_same)
  < claimed_score Np.dtw [[0.0001]] [[0.0001]] (similarity_score candidate_same)
    - 0.1 /\
  (similarity_score (rerank_candidate Np.dtw "./storage" files_wider [[1]]
                       candidate_same) = 1 /\
   forall s_cos, -1 <= s_cos <= 1 ->
     0.7 * (0.5 * dtw_similarity (_compute_dtw_distance Np.dtw [[1]] [[1; 0]])
            + 0.3 * s_cos + 0.2 * var_similarity [[1]] [[1; 0]])
     + 0.3 * similarity_score candidate_same < 1).
Proof.
  assert (Hsmall : Rabs 0.0001 = 0.0001) by (apply Rabs_pos_eq; lra).
  split; [| split].
  - rewrite (one_step_score "./storage" files_faint candidate_same 0.0001 0.0001)
      by (vm_compute; reflexivity).
    unfold claimed_score, cosine. rewrite var_similarity_one_step.
    rewrite !mean_axis0_one_step, !NpFacts.norm_singleton.
    rewrite dtw_distance_one_step. unfold dtw_similarity.
    unfold Np.inner, Np.sum.
    cbn [zip_with fold_right similarity_score candidate_same].
    replace (0.0001 - 0.0001) with 0 by lra. rewrite Rabs_R0, Hsmall.
    assert (Hcode : 0.0001 * 0.0001 / (0.0001 * 0.0001 + 1e-8) = 1 / 2).
    { assert (H : 0.0001 * 0.0001 = 1e-8) by lra. rewrite H.
      assert (H2 : 1e-8 + 1e-8 = 2 * 1e-8) by lra. rewrite H2.
      unfold Rdiv. rewrite Rinv_mult.
      assert (Hne : 1e-8 <> 0) by lra.
      pose proof (Rinv_r _ Hne) as Hi.
      set (t := / 1e-8) in *. nra. }
    assert (Hclaim : (0.0001 * 0.0001 + 0) / (0.0001 * 0.0001) = 1).
    { rewrite Rplus_0_r. unfold Rdiv. apply Rinv_r. lra. }
    rewrite Hcode, Hclaim. lra.
  - reflexivity.
  - intros s_cos Hs. rewrite dtw_distance_wider. unfold dtw_similarity.
    pose proof (var_similarity_bounds [[1]] [[1; 0]]) as Hv.
    cbn [similarity_score candidate_same]. lra.
Qed.

(** C6 (as amended). The score of the vector index lies in [[0, 1]]; a
    re-ranked score is at most 1 and at least -0.21, for candidates that
    come with a score in [[0, 1]] and a time-warping distance that is not
    negative. *)
Theorem reranked_scores_bounded
    (fastdtw : matrix -> matrix -> nat -> (vector -> vector -> result R) -> result R)
    (storage : string) (files : gmap string matrix) (Q : matrix)
    (candidates : list SearchResult) (k : Z) :
  (forall c, In c candidates -> 0 <= similarity_score c <= 1) ->
  (forall c C d, In c candidates ->
     files !! temporal_path storage (sr_video_id c) = Some C ->
     fastdtw Q C 10%nat Np.euclidean = Ok d -> 0 <= d) ->
  (forall cos, 0 <= index_score cos <= 1) /\
  (forall r, In r (_rerank_results fastdtw storage files Q candidates k) ->
     -0.21 <= similarity_score r <= 1).
Proof.
  intros Hscore Hdist. split.
  - intros cos. unfold index_score, Rmax, Rmin.
    repeat destruct (Rle_dec _ _); lra.
  - intros r Hr.
    apply rerank_results_are_rescored in Hr as (c & Hc & ->).
    apply rerank_candidate_bounded; [apply Hscore, Hc |].
    intros C d. apply Hdist, Hc.
Qed.

Lemma reranked_scores_bounded_witness :
  (forall cos, 0 <= index_score cos <= 1) /\
  (forall r, In r (_rerank_results Np.dtw "./storage" files_opposite [[1]]
                     [candidate_opposite] 20) ->
     -0.21 <= similarity_score r <= 1).
Proof.
  apply (reranked_scores_bounded Np.dtw "./storage" files_opposite [[1]]
           [candidate_opposite] 20).
  - intros c [<-|[]]. cbn. lra.
  - intros c C d [<-|[]] HC Hd.
    assert (Hfile : files_opposite !! temporal_path "./storage"
                      (sr_video_id candidate_opposite) = Some [[-9]])
      by (vm_compute; reflexivity).
    unfold matrix, vector in *. rewrite Hfile in HC. injection HC as <-.
    rewrite NpFacts.dtw_one_step in Hd by reflexivity.
    rewrite NpFacts.euclidean_same_length in Hd by reflexivity.
    injection Hd as <-.
    apply Rplus_le_le_0_compat; [apply NpFacts.norm_nonneg | lra].
Defined.

(** C6, the claim as stated fails: a candidate whose motion runs against
    the query's gets a negative score from the re-ranking. *)
Lemma reranked_score_can_be_negative :
  exists r,
    In r (_rerank_results Np.dtw "./storage" files_opposite [[1]]
            [candidate_opposite] 20) /\
    similarity_score r < 0.
Proof.
  exists (rerank_candidate Np.dtw "./storage" files_opposite [[1]]
            candidate_opposite).
  split; [left; reflexivity |].
  rewrite (one_step_score "./storage" files_opposite candidate_opposite 1 (-9))
    by (vm_compute; reflexivity).
  cbn [similarity_score candidate_opposite].
  replace (1 - -9) with 10 by lra.
  assert (Ha : Rabs 10 = 10) by (apply Rabs_pos_eq; lra).
  assert (Hb : Rabs (-9) = 9) by (rewrite Rabs_left by lra; lra).
  rewrite Rabs_R1, Ha, Hb.
  assert (H9 : 0.99 < 9 / (1 * 9 + 1e-8)).
  { apply Rmult_lt_reg_r with (1 * 9 + 1e-8); [lra |]. field_simplify; lra. }
  replace (1 * -9 / (1 * 9 + 1e-8)) with (- (9 / (1 * 9 + 1e-8))) by (field; lra).
  assert (H11 : 1 / (1 + 10) < 0.1).
  { apply Rmult_lt_reg_r with (1 + 10); [lra |]. field_simplify; lra. }
  lra.
Qed.

Section CacheFacts.
Variable file_hash : string -> string.
Variable encode_video : string -> result VideoFeatures.
Variable savez_ok unlink_ok : string -> bool.

Abbreviation thread_step := (thread_step file_hash encode_video savez_ok unlink_ok).
Abbreviation step_thread := (step_thread file_hash encode_video savez_ok unlink_ok).
Abbreviation run_schedule := (run_schedule file_hash encode_video savez_ok unlink_ok).
Abbreviation served_from_memory := (served_from_memory file_hash).


Lemma run_schedule_invariant (P : system -> Prop) :
  (forall j c, P c -> P (step_thread j c)) ->
  forall sched c, P c -> P (run_schedule sched c).
Proof.
  intros Hstep sched. induction sched as [|j sched IH]; intros c Hc; cbn.
  - exact Hc.
  - apply IH, Hstep, Hc.
Qed.

Lemma calls_by_log (i j : nat) (s : shared) (path : string) :
  calls_by i (log_encoder_call s j path)
  = (calls_by i s + (if decide (j = i) then 1 else 0))%nat.
Proof.
  unfold calls_by, log_encoder_call. cbn.
  rewrite filter_app, length_app. f_equal.
  cbn. unfold filter. cbn. destruct (decide (j = i)); reflexivity.
Qed.

(** A stretch of thread [j] leaves the calls of another thread alone. *)
Lemma thread_step_calls_by_other (i j : nat) (s : shared) (p : pc) :
  j <> i -> calls_by i (fst (thread_step j s p)) = calls_by i s.
Proof.
  intros Hne. destruct p; unfold Search.thread_step;
    repeat match goal with
           | |- context [match ?x with _ => _ end] => destruct x
           end; cbn [fst]; try reflexivity.
  all: rewrite calls_by_log; destruct (decide (j = i)); [contradiction | lia].
Qed.

(** The in-memory cache only grows. *)
Lemma thread_step_cache_grows (j : nat) (s : shared) (p : pc) (k : string) :
  is_Some (query_cache s !! k) ->
  is_Some (query_cache (fst (thread_step j s p)) !! k).
Proof.
  intros Hk. destruct p; unfold Search.thread_step;
    repeat match goal with
           | |- context [match ?x with _ => _ end] => destruct x
           end; cbn; try exact Hk.
  all: rewrite lookup_insert; case_decide; [eauto | exact Hk].
Qed.

Lemma step_spends_at_most_once (i j : nat) (c : system) :
  spends_at_most_once i c -> spends_at_most_once i (step_thread j c).
Proof.
  intros Hinv p' Hp'. unfold Search.step_thread in *.
  destruct (threads c !! j) as [p|] eqn:Hj; [| exact (Hinv p' Hp')].
  destruct (thread_step j (mem c) p) as [s' q] eqn:Hstep. cbn in *.
  destruct (decide (j = i)) as [->|Hne].
  - rewrite list_lookup_insert_eq in Hp' by (eapply lookup_lt_Some; eauto).
    injection Hp' as <-. specialize (Hinv p Hj).
    destruct p; unfold Search.thread_step in Hstep; cbn [budget] in Hinv;
      repeat match type of Hstep with
             | context [match ?x with _ => _ end] => destruct x
             end;
      injection Hstep as <- <-; cbn [budget];
      rewrite ?calls_by_log; try destruct (decide (i = i)); try contradiction;
      try (unfold calls_by in *; cbn in *; lia).
  - rewrite list_lookup_insert_ne in Hp' by exact Hne.
    specialize (Hinv p' Hp').
    pose proof (thread_step_calls_by_other i j (mem c) p Hne) as Hc.
    rewrite Hstep in Hc. cbn in Hc. rewrite Hc. exact Hinv.
Qed.

Lemma step_served_from_memory (i j : nat) (c : system) :
  served_from_memory i c -> served_from_memory i (step_thread j c).
Proof.
  intros [Hcalls Hpc]. unfold Search.step_thread.
  destruct (threads c !! j) as [p|] eqn:Hj; [| split; assumption].
  destruct (thread_step j (mem c) p) as [s' q] eqn:Hstep. cbn.
  destruct (decide (j = i)) as [->|Hne].
  - assert (Hlt : (i < length (threads c))%nat) by (eapply lookup_lt_Some; eauto).
    destruct Hpc as [(path & Hi & [f Hf])|(r & Hi)];
      rewrite Hi in Hj; injection Hj as <-; cbn in Hstep.
    + rewrite Hf in Hstep. injection Hstep as <- <-.
      split; [exact Hcalls |]. right. exists (Ok f).
      apply list_lookup_insert_eq, Hlt.
    + injection Hstep as <- <-.
      split; [exact Hcalls |]. right. exists r.
      apply list_lookup_insert_eq, Hlt.
  - pose proof (thread_step_calls_by_other i j (mem c) p Hne) as Hc.
    rewrite Hstep in Hc. cbn [fst] in Hc.
    split; cbn [mem threads]; [rewrite Hc; exact Hcalls |].
    rewrite list_lookup_insert_ne by exact Hne.
    destruct Hpc as [(path & Hi & Hf)|(r & Hi)]; [left | right; eauto].
    exists path. split; [exact Hi |].
    pose proof (thread_step_cache_grows j (mem c) p _ Hf) as Hg.
    rewrite Hstep in Hg. exact Hg.
Qed.

End CacheFacts.

(** C4 (as amended). Under any interleaving of the threads, a query makes
    at most one call of the encoder, and makes none when the in-memory cache
    already holds the features of its fingerprint at the time it starts. *)
Theorem cached_query_never_encodes (file_hash : string -> string)
    (encode_video : string -> result VideoFeatures)
    (savez_ok unlink_ok : string -> bool)
    (sched : list nat) (s : shared) (paths : list string) (i : nat)
    (path : string) :
  paths !! i = Some path ->
  calls_by i s = 0%nat ->
  let c' := run_schedule file_hash encode_video savez_ok unlink_ok sched
              (start s paths) in
  (calls_by i (mem c') <= 1)%nat /\
  (is_Some (query_cache s !! cache_key (file_hash path)) ->
   calls_by i (mem c') = 0%nat).
Proof.
  intros Hi Hcalls c'. subst c'.
  assert (Hpc : threads (start s paths) !! i = Some (AtMemory path)).
  { unfold start. cbn. rewrite list_lookup_fmap, Hi. reflexivity. }
  split.
  - pose proof (run_schedule_invariant file_hash encode_video savez_ok unlink_ok
                  (spends_at_most_once i)
                  (step_spends_at_most_once file_hash encode_video savez_ok
                     unlink_ok i) sched (start s paths)) as Hinv.
    assert (H0 : spends_at_most_once i (start s paths)).
    { intros p Hp. rewrite Hpc in Hp. injection Hp as <-. cbn. rewrite Hcalls. lia. }
    specialize (Hinv H0).
    destruct (threads (run_schedule file_hash encode_video savez_ok unlink_ok
                         sched (start s paths)) !! i) as [p|] eqn:Hp.
    + specialize (Hinv p Hp). lia.
    + (* the list of threads keeps its length *)
      exfalso. revert Hp.
      apply (run_schedule_invariant file_hash encode_video savez_ok unlink_ok
               (fun c => threads c !! i <> None)).
      * intros j c Hc. unfold step_thread.
        destruct (threads c !! j); [| exact Hc].
        destruct (thread_step _ _ _ _ j (mem c) p). cbn.
        intros Hnone. apply lookup_ge_None in Hnone.
        rewrite length_insert in Hnone. apply Hc, lookup_ge_None, Hnone.
      * rewrite Hpc. discriminate.
  - intros Hhit.
    apply (run_schedule_invariant file_hash encode_video savez_ok unlink_ok
             (served_from_memory file_hash i)
             (step_served_from_memory file_hash encode_video savez_ok
                unlink_ok i) sched (start s paths)).
    split; [exact Hcalls |]. left. exists path. split; [exact Hpc | exact Hhit].
Qed.

Lemma cached_query_never_encodes_witness :
  calls_by 0 (mem (run_schedule hash_of_content encoder_ok always always
                     [0; 1; 0; 1]%nat (start warm ["q.mp4"; "q.mp4"]))) = 0%nat.
Proof.
  apply (cached_query_never_encodes hash_of_content encoder_ok always always
           [0; 1; 0; 1]%nat warm ["q.mp4"; "q.mp4"] 0 "q.mp4").
  - reflexivity.
  - reflexivity.
  - exists query_features. vm_compute. reflexivity.
Defined.

(** C4, the claim as stated fails: two queries of the same file that start
    together on cold caches both miss, and the encoder is called twice for
    the one fingerprint. *)
Lemma concurrent_queries_encode_twice :
  calls_for hash_of_content "q.mp4"
    (mem (run_schedule hash_of_content encoder_ok always always
            [0; 1; 0; 1; 0; 1; 0; 1; 0; 1]%nat
            (start cold ["q.mp4"; "q.mp4"]))) = 2%nat.
Proof. vm_compute. reflexivity. Qed.




End SearchFacts.

Module PostgresFacts.
Import Postgres.
Local Open Scope Q_scope.

(** C7. [get_indexing_job] never reports a number for the ETA. For a job
    that has a start time and a completed video, the one case in which the
    code sets out to compute [elapsed * remaining / done], the evaluation of
    the elapsed time raises and the function returns no status at all; the
    status of every other job carries a null ETA, whatever
    [done = completed + failed] is. *)
Theorem eta_is_never_reported (now : Q) (jobs : gmap string IndexingJob)
    (job_id : string) :
  (forall st, get_indexing_job now jobs job_id = Some st ->
     eta_seconds st = None) /\
  (forall job t, jobs !! job_id = Some job -> started_at job = Some t ->
     (0 < completed job)%Z -> get_indexing_job now jobs job_id = None) /\
  (forall job, jobs !! job_id = Some job ->
     started_at job = None \/ (completed job <= 0)%Z ->
     exists st, get_indexing_job now jobs job_id = Some st /\
       js_completed st = completed job /\ js_failed st = failed job).
Proof.
  unfold get_indexing_job, elapsed_since. split; [| split].
  - intros st. destruct (jobs !! job_id) as [job|]; [| discriminate].
    destruct (started_at job) as [t|].
    + destruct (0 <? completed job)%Z; [discriminate |].
      intros [= <-]. reflexivity.
    + intros [= <-]. reflexivity.
  - intros job t -> -> Hpos.
    destruct (Z.ltb_spec 0 (completed job)); [reflexivity | lia].
  - intros job -> Hcase.
    destruct (started_at job) as [t|].
    + destruct Hcase as [Hn|Hc]; [discriminate Hn |].
      destruct (Z.ltb_spec 0 (completed job)); [lia |].
      eexists. split; [reflexivity |]. split; reflexivity.
    + eexists. split; [reflexivity |]. split; reflexivity.
Qed.

(** A running job of three videos, started, one completed and one failed:
    the elapsed time is there, [done = 2], and no status comes back. *)
Lemma started_job_gets_no_status :
  get_indexing_job 10 jobs_started "job1" = None.
Proof. vm_compute. reflexivity. Qed.

(** After the first of two videos of a batch has completed, [done = 1] and
    the ETA is null: the batch task never records a start time. *)
Lemma eta_null_although_done_positive :
  exists st, get_indexing_job 10 jobs_one_done "job1" = Some st /\
    eta_seconds st = None /\
    (js_completed st + js_failed st)%Z = 1%Z.
Proof. eexists. split; [vm_compute; reflexivity | split; reflexivity]. Qed.

End PostgresFacts.

Module AnomalyFacts.
Import Anomaly Baseline.
Local Open Scope R_scope.

(** Two nested elementwise operations on arrays of one length, read index by
    index. *)
Lemma zip_with_by_index (f g : R -> R -> R) (v mu sigma : vector) :
  length v = length mu -> length mu = length sigma ->
  zip_with g (zip_with f v mu) sigma
  = map (fun j => g (f (nth j v 0) (nth j mu 0)) (nth j sigma 0))
      (seq 0 (length v)).
Proof.
  revert mu sigma. induction v as [|x v IH]; intros [|m mu] [|sd sigma] Hm Hs;
    cbn in *; try discriminate; try reflexivity.
  f_equal. rewrite <- seq_shift, map_map. apply IH; lia.
Qed.

Lemma gt_true (x y : R) : gt x y = true <-> x > y.
Proof. unfold gt. destruct (Rlt_dec y x); split; intros; (lra || discriminate || reflexivity). Qed.

(** Sums of numpy, read index by index. *)
Lemma sigma_shift (n : nat) (f : nat -> R) :
  sigma (S n) f = f 0%nat + sigma n (fun i => f (S i)).
Proof.
  induction n as [|n IH]; [cbn; lra |].
  change (sigma (S (S n)) f) with (sigma (S n) f + f (S n)).
  rewrite IH. cbn [sigma]. lra.
Qed.

Lemma sigma_ext (n : nat) (f g : nat -> R) :
  (forall i, (i < n)%nat -> f i = g i) -> sigma n f = sigma n g.
Proof.
  induction n as [|n IH]; intros H; cbn [sigma]; [reflexivity |].
  rewrite IH by (intros i Hi; apply H; lia). rewrite H by lia. reflexivity.
Qed.

Lemma sum_by_index (l : vector) :
  Np.sum l = sigma (length l) (fun i => nth i l 0).
Proof.
  induction l as [|x l IH]; [reflexivity |].
  cbn [length]. rewrite sigma_shift. cbn [nth]. rewrite <- IH. reflexivity.
Qed.

Lemma sum_map_seq (f : nat -> R) (a n : nat) :
  Np.sum (map f (seq a n)) = sigma n (fun i => f (a + i)%nat).
Proof.
  revert a. induction n as [|n IH]; intros a; [reflexivity |].
  cbn [seq map]. rewrite sigma_shift. unfold Np.sum in *. cbn [fold_right].
  rewrite IH, Nat.add_0_r. f_equal.
  apply sigma_ext. intros i _. f_equal. lia.
Qed.

Lemma nth_zip_with (f : R -> R -> R) (a b : vector) (j : nat) :
  (j < length a)%nat -> (j < length b)%nat ->
  nth j (zip_with f a b) 0 = f (nth j a 0) (nth j b 0).
Proof.
  revert b j. induction a as [|x a IH]; intros [|y b] [|j] Ha Hb; cbn in *;
    try lia; [reflexivity |].
  apply IH; lia.
Qed.

Lemma nth_map_default (g : vector -> R) (x : matrix) (t : nat) :
  g [] = 0 -> nth t (map g x) 0 = g (nth t x []).
Proof. intros Hg. rewrite <- Hg at 1. apply map_nth. Qed.

Lemma nth_map_in_range (h : R -> R) (l : vector) (t : nat) :
  (t < length l)%nat -> nth t (map h l) 0 = h (nth t l 0).
Proof.
  intros Ht. rewrite (nth_indep _ 0 (h 0)) by (rewrite length_map; exact Ht).
  apply map_nth.
Qed.

Lemma norm_of_difference (r1 r2 : vector) (D : nat) :
  length r1 = D -> length r2 = D ->
  Np.norm (zip_with Rminus r2 r1)
  = sqrt (sigma D (fun j => (nth j r2 0 - nth j r1 0)
                            * (nth j r2 0 - nth j r1 0))).
Proof.
  intros H1 H2. unfold Np.norm, Np.inner. f_equal.
  rewrite sum_by_index, !length_zip_with, H1, H2, !Nat.min_id.
  apply sigma_ext. intros j Hj.
  rewrite nth_zip_with by (rewrite length_zip_with; lia).
  rewrite nth_zip_with by lia. reflexivity.
Qed.

Lemma length_diff (x : matrix) : length (Np.diff x) = (length x - 1)%nat.
Proof.
  induction x as [|r1 [|r2 rest] IH]; [reflexivity | reflexivity |].
  change (Np.diff (r1 :: r2 :: rest))
    with (zip_with Rminus r2 r1 :: Np.diff (r2 :: rest)).
  cbn [length] in *. lia.
Qed.

Lemma nth_diff (x : matrix) (t : nat) :
  (S t < length x)%nat ->
  nth t (Np.diff x) [] = zip_with Rminus (nth (S t) x []) (nth t x []).
Proof.
  revert t. induction x as [|r1 [|r2 rest] IH]; intros t Ht; cbn [length] in Ht;
    try lia.
  change (Np.diff (r1 :: r2 :: rest))
    with (zip_with Rminus r2 r1 :: Np.diff (r2 :: rest)).
  destruct t as [|t]; [reflexivity |].
  cbn [nth]. rewrite IH by (cbn [length]; lia). reflexivity.
Qed.

Lemma ncols_is_spec_dims (x : matrix) : Np.ncols x = spec_dims x.
Proof. destruct x; reflexivity. Qed.

Lemma rectangular_row (x : matrix) (t : nat) :
  Np.rectangular x -> (t < length x)%nat ->
  length (nth t x []) = spec_dims x.
Proof.
  intros Hrect Ht. rewrite <- ncols_is_spec_dims.
  unfold Np.rectangular in Hrect. rewrite List.Forall_forall in Hrect.
  apply Hrect, nth_In, Ht.
Qed.

(** The motion magnitude of the code is the [m] of the specification. *)
Lemma motion_by_index (x : matrix) :
  Np.rectangular x -> motion_of x = spec_motion_magnitude x.
Proof.
  intros Hrect. unfold motion_of, spec_motion_magnitude, Np.mean, Np.norm_axis1,
    spec_rows.
  rewrite length_map, length_diff. f_equal.
  rewrite sum_by_index, length_map, length_diff.
  apply sigma_ext. intros t Ht.
  rewrite nth_map_default
    by (unfold Np.norm, Np.inner, Np.sum; cbn; apply sqrt_0).
  rewrite nth_diff by lia.
  apply norm_of_difference; apply rectangular_row; (exact Hrect || lia).
Qed.

(** The variance of column [j] is the [v] of the specification. *)
Lemma variance_by_index (x : matrix) (j : nat) :
  Np.var (Np.column x j) = spec_temporal_variance x j.
Proof.
  assert (Hentry : forall t, nth t (Np.column x j) 0 = entry x t j).
  { intros t. unfold Np.column, entry.
    apply (nth_map_default (fun row => nth j row 0)). destruct j; reflexivity. }
  assert (Hlen : length (Np.column x j) = spec_rows x).
  { unfold Np.column, spec_rows. apply length_map. }
  set (col := Np.column x j) in *.
  assert (Hmean : Np.mean col
                  = sigma (spec_rows x) (fun t => entry x t j) / INR (spec_rows x)).
  { unfold Np.mean. rewrite Hlen. f_equal.
    rewrite sum_by_index, Hlen. apply sigma_ext. intros t _. apply Hentry. }
  unfold Np.var, spec_temporal_variance. rewrite Hmean.
  unfold Np.mean. rewrite length_map, Hlen. f_equal.
  rewrite sum_by_index, length_map, Hlen.
  apply sigma_ext. intros t Ht.
  rewrite nth_map_in_range by lia.
  rewrite Hentry. reflexivity.
Qed.

Lemma nth_var_axis0 (x : matrix) (j : nat) :
  (j < spec_dims x)%nat ->
  nth j (Np.var_axis0 x) 0 = spec_temporal_variance x j.
Proof.
  intros Hj. unfold Np.var_axis0. rewrite ncols_is_spec_dims.
  rewrite (nth_indep _ 0 (Np.var (Np.column x 0%nat)))
    by (rewrite length_map, length_seq; exact Hj).
  rewrite (map_nth (fun j => Np.var (Np.column x j))).
  rewrite seq_nth by exact Hj. apply variance_by_index.
Qed.

(** C9. With a baseline in place, for a video of at least two time steps
    whose dimension is the baseline's, the score reported by
    [detect_anomaly] is [(|z_motion| + z_variance) / 2] for the z-scores of
    the specification, computed from the motion magnitude [m] and the
    per-dimension variances [v] as the specification defines them on the
    entries of the temporal matrix; the video is flagged exactly when the
    score exceeds the threshold, which is 2 when the caller gives none. *)
Theorem anomaly_score_formula (encode_video : string -> result VideoFeatures)
    (video_path : string) (tau : option R) (s : service) (b : baseline)
    (features : VideoFeatures) :
  baseline_features s = Some b ->
  encode_video video_path = Ok features ->
  Np.rectangular (temporal_features features) ->
  well_shaped (temporal_features features) ->
  length (mean_temporal_variance b) = spec_dims (temporal_features features) ->
  length (std_temporal_variance b) = spec_dims (temporal_features features) ->
  exists r, fst (detect_anomaly_call encode_video video_path tau s) = Ok r /\
    anomaly_score r
    = spec_anomaly_score
        (spec_z_motion (spec_motion_magnitude (temporal_features features))
           (mean_motion_magnitude b) (std_motion_magnitude b))
        (spec_z_variance (spec_dims (temporal_features features))
           (spec_temporal_variance (temporal_features features))
           (mean_temporal_variance b) (std_temporal_variance b)) /\
    (tau = None -> (is_anomaly r = true <-> anomaly_score r > 2)) /\
    (forall t, tau = Some t -> (is_anomaly r = true <-> anomaly_score r > t)).
Proof.
  intros Hb Henc Hrect _ Hmu Hsigma.
  set (x := temporal_features features) in *.
  assert (HV : length (Np.var_axis0 x) = spec_dims x).
  { unfold Np.var_axis0. rewrite length_map, length_seq. apply ncols_is_spec_dims. }
  unfold detect_anomaly_call, detect_anomaly, call_encoder. rewrite Hb, Henc.
  fold x.
  rewrite NpFacts.broadcast_same_length by lia.
  rewrite NpFacts.broadcast_same_length by (rewrite length_zip_with; lia).
  eexists. split; [reflexivity |].
  cbn [anomaly_score is_anomaly]. split; [| split].
  - unfold spec_anomaly_score, spec_z_variance, spec_z_motion, z_score, Np.mean.
    rewrite motion_by_index by exact Hrect.
    rewrite (zip_with_by_index _ _ _ _ _ (eq_trans HV (eq_sym Hmu))
               (eq_trans Hmu (eq_sym Hsigma))).
    rewrite length_map, length_seq, HV, sum_map_seq.
    f_equal. f_equal. f_equal.
    apply sigma_ext. intros j Hj. cbn [Nat.add].
    rewrite nth_var_axis0 by exact Hj. reflexivity.
  - intros ->. apply gt_true.
  - intros t ->. apply gt_true.
Qed.

Lemma anomaly_score_formula_witness :
  exists r,
    fst (detect_anomaly_call encoder_walking "walk.mp4" None with_baseline)
      = Ok r /\
    anomaly_score r
    = spec_anomaly_score
        (spec_z_motion (spec_motion_magnitude (temporal_features walking)) 1 1)
        (spec_z_variance 1 (spec_temporal_variance (temporal_features walking))
           [0] [1]) /\
    (@None R = None -> (is_anomaly r = true <-> anomaly_score r > 2)) /\
    (forall t, None = Some t -> (is_anomaly r = true <-> anomaly_score r > t)).
Proof.
  refine (anomaly_score_formula encoder_walking "walk.mp4" None with_baseline
            {| mean_temporal_variance := [0]; std_temporal_variance := [1];
               mean_motion_magnitude := 1; std_motion_magnitude := 1;
               num_videos := 10 |}
            walking eq_refl eq_refl _ _ eq_refl eq_refl).
  - repeat constructor.
  - split; cbn; lia.
Defined.

(** C10. Without a baseline both detectors raise [ValueError] and hand back
    the service as it was: the baseline is still empty and the encoder has
    not been called. *)
Theorem no_baseline_raises_before_encoding
    (encode_video : string -> result VideoFeatures) (video_path : string)
    (tau : R) (window_size : nat) (s : service) :
  baseline_features s = None ->
  detect_anomaly encode_video video_path tau s
    = (Raise (ValueError "Baseline not established. Call establish_baseline() first."), s)
  /\ detect_temporal_anomalies encode_video video_path window_size s
    = (Raise (ValueError "Baseline not established. Call establish_baseline() first."), s).
Proof.
  intros Hb. unfold detect_anomaly, detect_temporal_anomalies.
  rewrite Hb. split; reflexivity.
Qed.

Lemma no_baseline_raises_before_encoding_witness :
  detect_anomaly encoder_walking "walk.mp4" 2 fresh
    = (Raise (ValueError "Baseline not established. Call establish_baseline() first."), fresh)
  /\ detect_temporal_anomalies encoder_walking "walk.mp4" 16 fresh
    = (Raise (ValueError "Baseline not established. Call establish_baseline() first."), fresh).
Proof.
  exact (no_baseline_raises_before_encoding encoder_walking "walk.mp4" 2 16
           fresh eq_refl).
Defined.

End AnomalyFacts.

(** * Further properties of the modelled code *)

Module TasksMore.
Import Tasks TaskInputs.



(** Whatever the outcomes of its executions, the worker schedules at most
    three retries of a video, with countdowns 60, 120 and 240 seconds in this
    order. *)
Theorem worker_retries_at_most_three_times (storage : string)
    (envs : nat -> attempt_env) (vid url : string)
    (md : option task_metadata) (w : world) :
  exists evs : list event,
    calls (snd (run_task storage envs vid url md w)) = (calls w ++ evs)%list /\
    retry_countdowns evs `prefix_of` [60; 120; 240]%nat.
Proof.
  exact (TasksFacts.run_attempts_backoff storage envs vid url md max_retries 0 w
           eq_refl).
Qed.

(** A local video whose file is not found is never handed to the encoder:
    the execution records the two status changes (and the retry), and the
    row keeps the message naming the missing path. *)
Theorem missing_file_is_not_encoded (storage : string) (env : attempt_env)
    (k : nat) (vid url : string) (md : option task_metadata) (w : world) :
  is_remote url = false ->
  path_exists env = false ->
  db_failed_ok env = true ->
  let rw := index_video_task storage env k vid url md w in
  calls (snd rw)
    = (calls w ++ [EvStatus vid processing; EvStatus vid failed]
         ++ (if (k <? max_retries)%nat then [EvRetry (60 * 2 ^ k)] else []))%list /\
  exists row, videos (snd rw) !! vid = Some row /\
    v_status row = failed /\
    error_message row = Some ("Video file not found: " ++ url).
Proof.
  intros Hlocal Hex Hdb rw. subst rw.
  destruct (TasksFacts.execution_frame storage env k vid url md w)
    as (_ & _ & Hc & _).
  split; [exact Hc |].
  destruct (TasksFacts.execution_row storage env k vid url md w Hdb)
    as (row & Hrow & Hs & He).
  exists row. split; [exact Hrow |]. split; [exact Hs |].
  rewrite He. unfold body_exception. rewrite Hlocal, Hex. reflexivity.
Qed.

Lemma missing_file_is_not_encoded_witness :
  let rw := index_video_task "./storage" env_missing_file 0 "v1" "/data/v1.mp4"
              None empty_world in
  calls (snd rw)
    = ([] ++ [EvStatus "v1" processing; EvStatus "v1" failed]
          ++ [EvRetry (60 * 2 ^ 0)])%list /\
  exists row, videos (snd rw) !! "v1" = Some row /\
    v_status row = failed /\
    error_message row = Some ("Video file not found: " ++ "/data/v1.mp4").
Proof.
  exact (missing_file_is_not_encoded "./storage" env_missing_file 0 "v1"
           "/data/v1.mp4" None empty_world eq_refl eq_refl eq_refl).
Defined.

(** A remote video is not downloaded: [download_video] raises before it
    makes the request, and the execution fails with the [NameError] whether
    or not the file could have been fetched. *)
Theorem remote_video_is_not_downloaded (storage : string) (env : attempt_env)
    (k : nat) (vid url : string) (md : option task_metadata) (w : world) :
  is_remote url = true ->
  db_failed_ok env = true ->
  let rw := index_video_task storage env k vid url md w in
  fst rw = Raise (if (k <? max_retries)%nat then Retry (60 * 2 ^ k)
                  else NameError "config") /\
  exists row, videos (snd rw) !! vid = Some row /\
    v_status row = failed /\
    error_message row = Some "name 'config' is not defined".
Proof.
  intros Hremote Hdb rw. subst rw.
  assert (He : body_exception env url = NameError "config").
  { unfold body_exception. rewrite Hremote. reflexivity. }
  split.
  - rewrite TasksFacts.execution_result, He. reflexivity.
  - destruct (TasksFacts.execution_row storage env k vid url md w Hdb)
      as (row & Hrow & Hs & Hm).
    exists row. rewrite Hm, He. auto.
Qed.

Lemma remote_video_is_not_downloaded_witness :
  let rw := index_video_task "./storage" env_ok 3 "v1"
              "https://example.org/v1.mp4" None empty_world in
  fst rw = Raise (NameError "config") /\
  exists row, videos (snd rw) !! "v1" = Some row /\
    v_status row = failed /\
    error_message row = Some "name 'config' is not defined".
Proof.
  exact (remote_video_is_not_downloaded "./storage" env_ok 3 "v1"
           "https://example.org/v1.mp4" None empty_world eq_refl eq_refl).
Defined.

End TasksMore.

Module PostgresMore.
Import Postgres.
Local Open Scope Q_scope.

Lemma percentage_bounds (d t : Z) :
  (0 <= d)%Z -> (d <= t)%Z -> (0 < t)%Z ->
  0 <= inject_Z d / inject_Z t * 100 <= 100.
Proof.
  intros Hd Hdt Ht.
  destruct t as [|p|p]; try lia.
  unfold Qle, Qdiv, Qmult, Qinv, inject_Z. cbn. split; nia.
Qed.

(** For a job whose counters are consistent ([0 <= completed], [0 <= failed],
    [completed + failed <= total]): a job that has a start time and a
    completed video gets no status; every other job gets one, and the
    reported progress lies between 0 and 100, a job of no videos reporting 0
    instead of dividing by zero. *)
Theorem progress_percentage_bounds (now : Q) (jobs : gmap string IndexingJob)
    (job_id : string) (job : IndexingJob) :
  jobs !! job_id = Some job ->
  (0 <= completed job)%Z -> (0 <= failed job)%Z ->
  (completed job + failed job <= total_videos job)%Z ->
  (is_Some (started_at job) /\ (0 < completed job)%Z /\
   get_indexing_job now jobs job_id = None) \/
  ((started_at job = None \/ completed job = 0%Z) /\
   exists st, get_indexing_job now jobs job_id = Some st /\
     0 <= progress_percentage st <= 100 /\
     (total_videos job = 0%Z -> progress_percentage st == 0)).
Proof.
  intros Hjob Hc Hf Hsum. unfold get_indexing_job, elapsed_since. rewrite Hjob.
  assert (Hbounds :
    0 <= (if (0 <? total_videos job)%Z
          then inject_Z (completed job + failed job) / inject_Z (total_videos job) * 100
          else 0) <= 100 /\
    (total_videos job = 0%Z ->
     (if (0 <? total_videos job)%Z
      then inject_Z (completed job + failed job) / inject_Z (total_videos job) * 100
      else 0) == 0)).
  { destruct (Z.ltb_spec 0 (total_videos job)) as [Hpos|Hzero].
    - split; [apply percentage_bounds; lia | lia].
    - split; [split; unfold Qle; cbn; lia | reflexivity]. }
  destruct (started_at job) as [t|].
  - destruct (Z.ltb_spec 0 (completed job)) as [Hpos|Hzero].
    + left. split; [eauto |]. split; [exact Hpos | reflexivity].
    + right. split; [right; lia |].
      eexists; split; [reflexivity | exact Hbounds].
  - right. split; [left; reflexivity |].
    eexists; split; [reflexivity | exact Hbounds].
Qed.

Lemma progress_percentage_bounds_witness :
  exists st, get_indexing_job 10 jobs_one_done "job1" = Some st /\
    progress_percentage st == 50 /\
    0 <= progress_percentage st <= 100.
Proof.
  destruct (progress_percentage_bounds 10 jobs_one_done "job1"
              {| total_videos := 2; completed := 1; failed := 0;
                 status := "queued"; started_at := None;
                 completed_at := None; error_message := None |})
    as [(Hstarted & _)|(_ & st & Hst & Hbounds & _)].
  - vm_compute. reflexivity.
  - cbn. lia.
  - cbn. lia.
  - cbn. lia.
  - exfalso. destruct Hstarted as [t Ht]. discriminate Ht.
  - exists st. split; [exact Hst |]. split; [| exact Hbounds].
    vm_compute in Hst. injection Hst as <-. reflexivity.
Defined.

(** Once a job has a start time, no progress update changes it, whatever
    status it carries; the total of the job never changes either. *)
Theorem start_time_is_set_once (now : Q) (jobs : gmap string IndexingJob)
    (job_id : string) (job : IndexingJob) (t : Q) (c f : Z)
    (st err : option string) :
  jobs !! job_id = Some job ->
  started_at job = Some t ->
  exists job', update_job_progress now jobs job_id c f st err !! job_id = Some job' /\
    started_at job' = Some t /\
    total_videos job' = total_videos job /\
    completed job' = c /\ failed job' = f.
Proof.
  intros Hjob Hstart. unfold update_job_progress. rewrite Hjob, Hstart.
  assert (Hdec : bool_decide (is_Some (Some t)) = true)
    by (apply bool_decide_eq_true_2; eauto).
  destruct (truthy st) as [s|].
  - rewrite Hdec, andb_false_r. cbn [negb].
    destruct (_ || _); rewrite lookup_insert_eq; eexists;
      (split; [reflexivity |]); cbn; auto.
  - rewrite lookup_insert_eq. eexists. split; [reflexivity |]. cbn. auto.
Qed.

Lemma start_time_is_set_once_witness :
  exists job', update_job_progress 20 jobs_started "job1" 2 1
                 (Some "processing") None !! "job1" = Some job' /\
    started_at job' = Some 0 /\
    total_videos job' = 3%Z /\
    completed job' = 2%Z /\ failed job' = 1%Z.
Proof.
  refine (start_time_is_set_once 20 jobs_started "job1"
            {| total_videos := 3; completed := 1; failed := 1;
               status := "processing"; started_at := Some 0;
               completed_at := None; error_message := None |} 0 2 1
            (Some "processing") None _ _).
  - vm_compute. reflexivity.
  - reflexivity.
Defined.

End PostgresMore.

Module BatchFacts.
Import Postgres Batch.
Local Open Scope Z_scope.

Lemma counts_add_up (results : list (result Tasks.task_result)) :
  count_succeeded results + count_failed results = Z.of_nat (length results).
Proof.
  unfold count_succeeded, count_failed.
  induction results as [|[res|e] results IH]; cbn [List.filter succeeded negb length];
    lia.
Qed.

Lemma counts_nonnegative (results : list (result Tasks.task_result)) :
  0 <= count_succeeded results /\ 0 <= count_failed results.
Proof. unfold count_succeeded, count_failed. lia. Qed.

Lemma counts_cons_ok (res : Tasks.task_result)
    (results : list (result Tasks.task_result)) :
  count_succeeded (Ok res :: results) = 1 + count_succeeded results /\
  count_failed (Ok res :: results) = count_failed results.
Proof.
  unfold count_succeeded, count_failed.
  cbn [List.filter succeeded negb length]. lia.
Qed.

Lemma counts_cons_raise (e : exn) (results : list (result Tasks.task_result)) :
  count_succeeded (Raise e :: results) = count_succeeded results /\
  count_failed (Raise e :: results) = 1 + count_failed results.
Proof.
  unfold count_succeeded, count_failed.
  cbn [List.filter succeeded negb length]. lia.
Qed.

(** The monitoring loop only rewrites the two counters of its job. *)
Lemma monitor_counts (now : Q) (job_id : string)
    (results : list (result Tasks.task_result)) :
  forall (jobs : gmap string IndexingJob) (job : IndexingJob) (c0 f0 : Z),
    jobs !! job_id = Some job ->
    completed job = c0 -> failed job = f0 ->
    monitor now jobs job_id results c0 f0
    = (<[job_id := {| total_videos := total_videos job;
                      completed := c0 + count_succeeded results;
                      failed := f0 + count_failed results;
                      status := status job; started_at := started_at job;
                      completed_at := completed_at job;
                      error_message := error_message job |}]> jobs,
       c0 + count_succeeded results, f0 + count_failed results).
Proof.
  induction results as [|r results IH]; intros jobs job c0 f0 Hjob Hc Hf.
  - cbn [monitor]. unfold count_succeeded, count_failed. cbn.
    rewrite !Z.add_0_r. f_equal. f_equal. symmetry.
    apply insert_id. rewrite Hjob. destruct job; cbn in *; subst; reflexivity.
  - cbn [monitor].
    assert (Hstep : forall c f,
      update_job_progress now jobs job_id c f None None
      = <[job_id := {| total_videos := total_videos job; completed := c;
                       failed := f; status := status job;
                       started_at := started_at job;
                       completed_at := completed_at job;
                       error_message := error_message job |}]> jobs).
    { intros c f. unfold update_job_progress. rewrite Hjob. reflexivity. }
    destruct r as [res|e]; rewrite Hstep;
      (erewrite IH; [| apply lookup_insert_eq | reflexivity | reflexivity]);
      cbn [total_videos status started_at completed_at error_message];
      rewrite insert_insert_eq.
    + destruct (counts_cons_ok res results) as [-> ->].
      rewrite !Z.add_assoc. reflexivity.
    + destruct (counts_cons_raise e results) as [-> ->].
      rewrite !Z.add_assoc. reflexivity.
Qed.

(** The batch task on a fresh job id, run to its end. *)
Lemma batch_run (now : Q) (jobs : gmap string IndexingJob)
    (job_id : string) (results : list (result Tasks.task_result)) :
  jobs !! job_id = None ->
  let st := if count_failed results =? 0
            then "completed" else "completed_with_errors" in
  batch_index_task now jobs job_id (Ok tt) results
  = (Ok {| br_status := st; br_completed := count_succeeded results;
           br_failed := count_failed results |},
     <[job_id := {| total_videos := Z.of_nat (length results);
                    completed := count_succeeded results;
                    failed := count_failed results;
                    status := st; started_at := None;
                    completed_at := Some now; error_message := None |}]> jobs)
  /\ count_succeeded results + count_failed results = Z.of_nat (length results).
Proof.
  intros Hfresh st. split; [| apply counts_add_up].
  unfold batch_index_task, create_indexing_job. rewrite Hfresh.
  erewrite monitor_counts;
    [| apply lookup_insert_eq | reflexivity | reflexivity].
  cbn [total_videos status started_at completed_at error_message].
  rewrite insert_insert_eq, !Z.add_0_l. fold st.
  f_equal. unfold update_job_progress. rewrite lookup_insert_eq.
  subst st. destruct (count_failed results =? 0); cbn;
    rewrite insert_insert_eq; reflexivity.
Qed.

(** Job accounting. For a fresh job id and a batch that reaches the broker,
    [batch_index_task] leaves a job whose counters are the numbers of tasks
    that succeeded and failed, which add up to the total; the job is
    [completed] exactly when no task failed and [completed_with_errors]
    otherwise, it has a completion time and no start time. *)
Theorem batch_counts_every_task (now : Q) (jobs : gmap string IndexingJob)
    (job_id : string) (results : list (result Tasks.task_result)) :
  jobs !! job_id = None ->
  let st := if count_failed results =? 0
            then "completed" else "completed_with_errors" in
  batch_index_task now jobs job_id (Ok tt) results
  = (Ok {| br_status := st; br_completed := count_succeeded results;
           br_failed := count_failed results |},
     <[job_id := {| total_videos := Z.of_nat (length results);
                    completed := count_succeeded results;
                    failed := count_failed results;
                    status := st; started_at := None;
                    completed_at := Some now; error_message := None |}]> jobs)
  /\ count_succeeded results + count_failed results = Z.of_nat (length results).
Proof. exact (batch_run now jobs job_id results). Qed.

Lemma batch_counts_every_task_witness :
  batch_index_task 7 ∅ "job1" (Ok tt) three_results
  = (Ok {| br_status := "completed_with_errors"; br_completed := 2;
           br_failed := 1 |},
     <[ "job1" := {| total_videos := 3; completed := 2; failed := 1;
                     status := "completed_with_errors"; started_at := None;
                     completed_at := Some 7%Q; error_message := None |}]> ∅)
  /\ count_succeeded three_results + count_failed three_results = 3.
Proof.
  exact (batch_counts_every_task 7 ∅ "job1" three_results eq_refl).
Defined.

(** A job run by [batch_index_task] never gets a start time, so its status
    reports no ETA when it ends; the progress reported then is 100 for a
    batch with videos and 0 for an empty one. *)
Theorem finished_batch_reports_no_eta (now later : Q)
    (jobs : gmap string IndexingJob) (job_id : string)
    (results : list (result Tasks.task_result)) :
  jobs !! job_id = None ->
  exists st,
    get_indexing_job later
      (snd (batch_index_task now jobs job_id (Ok tt) results)) job_id = Some st /\
    eta_seconds st = None /\
    (results <> [] -> (progress_percentage st == 100)%Q) /\
    (results = [] -> (progress_percentage st == 0)%Q /\ js_status st = "completed").
Proof.
  intros Hfresh.
  destruct (batch_run now jobs job_id results Hfresh) as [Hrun Hsum].
  rewrite Hrun. cbn [snd]. unfold get_indexing_job.
  rewrite lookup_insert_eq.
  cbn [total_videos completed failed status started_at].
  eexists. split; [reflexivity |]. cbn [eta_seconds progress_percentage js_status].
  split; [reflexivity |]. rewrite Hsum. split.
  - intros Hne. destruct results as [|r results]; [contradiction |].
    cbn [length]. rewrite Nat2Z.inj_succ.
    destruct (Z.ltb_spec 0 (Z.succ (Z.of_nat (length results)))); [| lia].
    field. unfold Qeq. cbn. lia.
  - intros ->. cbn. split; reflexivity.
Qed.

Lemma finished_batch_reports_no_eta_witness :
  exists st,
    get_indexing_job 9
      (snd (batch_index_task 7 ∅ "job1" (Ok tt) three_results)) "job1" = Some st /\
    eta_seconds st = None /\
    (three_results <> [] -> (progress_percentage st == 100)%Q) /\
    (three_results = [] -> (progress_percentage st == 0)%Q /\ js_status st = "completed").
Proof.
  exact (finished_batch_reports_no_eta 7 9 ∅ "job1" three_results eq_refl).
Defined.

(** When the submissions cannot be handed to the broker, the job is marked
    failed with every video counted as failed, the exception is re-raised,
    and its text is kept unless it is empty. *)
Theorem undispatched_batch_is_failed (now : Q) (jobs : gmap string IndexingJob)
    (job_id : string) (results : list (result Tasks.task_result)) (e : exn) :
  jobs !! job_id = None ->
  batch_index_task now jobs job_id (Raise e) results
  = (Raise e,
     <[job_id := {| total_videos := Z.of_nat (length results);
                    completed := 0;
                    failed := Z.of_nat (length results);
                    status := "failed"; started_at := None;
                    completed_at := Some now;
                    error_message := truthy (Some (str e)) |}]> jobs).
Proof.
  intros Hfresh. unfold batch_index_task, create_indexing_job, update_job_progress. rewrite Hfresh.
  rewrite lookup_insert_eq. cbn. rewrite insert_insert_eq.
  destruct (String.eqb (str e) ""); reflexivity.
Qed.

Lemma undispatched_batch_is_failed_witness :
  batch_index_task 7 ∅ "job1" (Raise (Exception io_error "broker down"))
    three_results
  = (Raise (Exception io_error "broker down"),
     <[ "job1" := {| total_videos := 3; completed := 0; failed := 3;
                     status := "failed"; started_at := None;
                     completed_at := Some 7%Q;
                     error_message := truthy (Some "broker down") |}]> ∅).
Proof.
  exact (undispatched_batch_is_failed 7 ∅ "job1" three_results
           (Exception io_error "broker down") eq_refl).
Defined.

End BatchFacts.

Module SearchMore.
Import Search SearchNotions.
Local Open Scope R_scope.

Lemma insert_desc_permutation (x : SearchResult) (l : list SearchResult) :
  insert_desc x l ≡ₚ x :: l.
Proof.
  induction l as [|y l IH]; cbn; [reflexivity |].
  destruct (Rle_dec _ _); [reflexivity |].
  rewrite IH. apply Permutation_swap.
Qed.

Lemma sort_desc_permutation (l : list SearchResult) : sort_desc l ≡ₚ l.
Proof.
  induction l as [|x l IH]; cbn; [reflexivity |].
  rewrite insert_desc_permutation, IH. reflexivity.
Qed.

Lemma insert_desc_sorted (x : SearchResult) (l : list SearchResult) :
  StronglySorted by_decreasing_score l ->
  StronglySorted by_decreasing_score (insert_desc x l).
Proof.
  induction 1 as [|y l Hl IH Hy]; cbn.
  - constructor; constructor.
  - destruct (Rle_dec (similarity_score y) (similarity_score x)) as [Hlt|Hge].
    + constructor; [constructor; assumption |].
      constructor; [unfold by_decreasing_score; lra |].
      eapply Forall_impl; [exact Hy |].
      unfold by_decreasing_score. intros z Hz. lra.
    + constructor; [exact IH |].
      apply Forall_forall. intros z Hz.
      apply list_elem_of_In, SearchFacts.in_insert_desc in Hz as [->|Hz].
      * unfold by_decreasing_score. lra.
      * rewrite Forall_forall in Hy. apply Hy, list_elem_of_In, Hz.
Qed.

Lemma sort_desc_sorted (l : list SearchResult) :
  StronglySorted by_decreasing_score (sort_desc l).
Proof.
  induction l as [|x l IH]; cbn; [constructor | apply insert_desc_sorted, IH].
Qed.

Lemma firstn_sorted (n : nat) (l : list SearchResult) :
  StronglySorted by_decreasing_score l ->
  StronglySorted by_decreasing_score (firstn n l).
Proof.
  intros Hl. revert n. induction Hl as [|x l Hl IH Hx]; intros [|n]; cbn;
    try constructor.
  - apply IH.
  - apply Forall_forall. intros z Hz. rewrite Forall_forall in Hx.
    apply Hx. apply list_elem_of_In. apply list_elem_of_In in Hz.
    revert Hz. clear. revert n. induction l as [|y l IHl]; intros [|n]; cbn; try tauto.
    intros [->|H]; [left; reflexivity | right; eapply IHl, H].
Qed.

(** Candidates of equal score keep their order: the stable sort. *)
Lemma insert_desc_stable (v : R) (x : SearchResult) (l : list SearchResult) :
  of_score v (insert_desc x l) = of_score v (x :: l).
Proof.
  unfold of_score. induction l as [|y l IH]; cbn [insert_desc]; [reflexivity |].
  destruct (Rle_dec (similarity_score y) (similarity_score x)) as [Hle|Hgt];
    [reflexivity |].
  cbn [List.filter] in *. rewrite IH.
  destruct (Req_dec_T (similarity_score y) v) as [Hy|Hy];
    destruct (Req_dec_T (similarity_score x) v) as [Hx|Hx];
    try reflexivity.
  exfalso. apply Hgt. rewrite Hy, Hx. apply Rle_refl.
Qed.

Lemma sort_desc_stable (v : R) (l : list SearchResult) :
  of_score v (sort_desc l) = of_score v l.
Proof.
  induction l as [|x l IH]; [reflexivity |].
  cbn [sort_desc fold_right]. rewrite insert_desc_stable.
  unfold of_score in *. cbn [List.filter]. fold (sort_desc l). rewrite IH.
  reflexivity.
Qed.

Lemma sort_desc_is_stable_sort (l : list SearchResult) :
  stable_sort_of l (sort_desc l).
Proof.
  split; [apply sort_desc_permutation |].
  split; [apply sort_desc_sorted |].
  intros v. apply sort_desc_stable.
Qed.

Lemma length_rerank_results
    (fastdtw : matrix -> matrix -> nat -> (vector -> vector -> result R) -> result R)
    (storage : string) (files : gmap string matrix) (Q : matrix)
    (candidates : list SearchResult) (k : Z) :
  (0 <= k)%Z ->
  length (_rerank_results fastdtw storage files Q candidates k)
  = Nat.min (Z.to_nat k) (length candidates).
Proof.
  intros Hk. unfold _rerank_results, slice_to.
  destruct (Z.ltb_spec k 0) as [Hneg|_]; [lia |].
  rewrite length_firstn.
  rewrite (Permutation_length (sort_desc_permutation _)), length_map.
  reflexivity.
Qed.

(** The list returned by the re-ranking is the head, of length [top_k] when
    there are that many, of the rescored candidates after a stable sort by
    decreasing score: all of them, in decreasing order, those of equal
    score in the order the vector index gave them. *)
Theorem reranked_results_are_sorted
    (fastdtw : matrix -> matrix -> nat -> (vector -> vector -> result R) -> result R)
    (storage : string) (files : gmap string matrix) (Q : matrix)
    (candidates : list SearchResult) (k : Z) :
  (0 <= k)%Z ->
  let rescored := map (rerank_candidate fastdtw storage files Q) candidates in
  let results := _rerank_results fastdtw storage files Q candidates k in
  StronglySorted by_decreasing_score results /\
  length results = Nat.min (Z.to_nat k) (length candidates) /\
  exists sorted,
    stable_sort_of rescored sorted /\
    results = firstn (Z.to_nat k) sorted.
Proof.
  intros Hk rescored results. subst rescored results.
  split; [| split].
  - unfold _rerank_results, slice_to.
    destruct (Z.ltb_spec k 0) as [Hneg|_]; [lia |].
    apply firstn_sorted, sort_desc_sorted.
  - apply length_rerank_results, Hk.
  - eexists. split; [apply sort_desc_is_stable_sort |].
    unfold _rerank_results, slice_to.
    destruct (Z.ltb_spec k 0) as [Hneg|_]; [lia | reflexivity].
Qed.

(** The scores the re-ranking gives to the three videos of [files_three]
    for the query [[[1]]]: the two videos that move like the query score
    the same, above the one that moves against it. *)
Lemma three_scores :
  let score c := similarity_score
                   (rerank_candidate Np.dtw "./storage" files_three [[1]] c) in
  score candidate_same = score candidate_twin /\
  score candidate_opposite < score candidate_same.
Proof.
  cbv beta zeta.
  rewrite (SearchFacts.one_step_score "./storage" files_three candidate_same 1 1)
    by (vm_compute; reflexivity).
  rewrite (SearchFacts.one_step_score "./storage" files_three candidate_twin 1 1)
    by (vm_compute; reflexivity).
  rewrite (SearchFacts.one_step_score "./storage" files_three candidate_opposite
             1 (-9)) by (vm_compute; reflexivity).
  cbn [similarity_score candidate_same candidate_twin candidate_opposite].
  split; [reflexivity |].
  replace (1 - 1) with 0 by lra. replace (1 - -9) with 10 by lra.
  assert (Ha : Rabs 10 = 10) by (apply Rabs_pos_eq; lra).
  assert (Hb : Rabs (-9) = 9) by (rewrite Rabs_left by lra; lra).
  rewrite Rabs_R0, Rabs_R1, Ha, Hb.
  assert (H1 : 0 < 1 * 1 / (1 * 1 + 1e-8)).
  { apply Rdiv_lt_0_compat; lra. }
  assert (H9 : 1 * -9 / (1 * 9 + 1e-8) < 0).
  { replace (1 * -9 / (1 * 9 + 1e-8)) with (- (9 / (1 * 9 + 1e-8)))
      by (field; lra).
    assert (0 < 9 / (1 * 9 + 1e-8)) by (apply Rdiv_lt_0_compat; lra). lra. }
  assert (H11 : 1 / (1 + 10) < 0.1).
  { apply Rmult_lt_reg_r with (1 + 10); [lra |]. field_simplify; lra. }
  assert (H0 : 1 / (1 + 0) = 1) by (field; lra).
  rewrite H0. lra.
Qed.

Lemma reranked_results_are_sorted_witness :
  let candidates := [candidate_opposite; candidate_same; candidate_twin] in
  let rescored := map (rerank_candidate Np.dtw "./storage" files_three [[1]])
                    candidates in
  let results := _rerank_results Np.dtw "./storage" files_three [[1]]
                   candidates 2 in
  map sr_video_id results = ["v1"; "v3"] /\
  StronglySorted by_decreasing_score results /\
  length results = Nat.min (Z.to_nat 2) (length candidates) /\
  exists sorted,
    stable_sort_of rescored sorted /\
    results = firstn (Z.to_nat 2) sorted.
Proof.
  split.
  - destruct three_scores as [Heq Hlt].
    unfold _rerank_results, slice_to, sort_desc.
    cbn [Z.ltb Z.compare map fold_right insert_desc].
    set (ro := rerank_candidate Np.dtw "./storage" files_three [[1]]
                 candidate_opposite) in *.
    set (rs := rerank_candidate Np.dtw "./storage" files_three [[1]]
                 candidate_same) in *.
    set (rt := rerank_candidate Np.dtw "./storage" files_three [[1]]
                 candidate_twin) in *.
    destruct (Rle_dec (similarity_score rt) (similarity_score rs)); [| lra].
    cbn [insert_desc].
    destruct (Rle_dec (similarity_score rs) (similarity_score ro)); [lra |].
    cbn [insert_desc].
    destruct (Rle_dec (similarity_score rt) (similarity_score ro)); [lra |].
    cbn [insert_desc]. change (Z.to_nat 2) with 2%nat. cbn [firstn map].
    subst rs rt. reflexivity.
  - apply (reranked_results_are_sorted Np.dtw "./storage" files_three [[1]]
             [candidate_opposite; candidate_same; candidate_twin] 2).
    lia.
Defined.

(** What the rescoring leaves of a candidate. *)
Lemma rerank_candidate_identity
    (fastdtw : matrix -> matrix -> nat -> (vector -> vector -> result R) -> result R)
    (storage : string) (files : gmap string matrix) (Q : matrix)
    (c : SearchResult) :
  let r := rerank_candidate fastdtw storage files Q c in
  sr_video_id r = sr_video_id c /\
  video_path r = video_path c /\
  distance r = distance c /\
  (files !! temporal_path storage (sr_video_id c) = None -> r = c).
Proof.
  intros r. subst r. unfold rerank_candidate.
  destruct (files !! _) as [C|].
  - destruct (cosine_sim Q C); cbn; repeat split; try reflexivity; discriminate.
  - repeat split; reflexivity.
Qed.

(** Re-ranking never changes which video a result names: the id, the path
    and the reported distance of a candidate stay as the index gave them
    (the distance also when the score is replaced), and a candidate without
    a temporal file comes back untouched. *)
Theorem rerank_keeps_identity
    (fastdtw : matrix -> matrix -> nat -> (vector -> vector -> result R) -> result R)
    (storage : string) (files : gmap string matrix) (Q : matrix)
    (c : SearchResult) :
  let r := rerank_candidate fastdtw storage files Q c in
  sr_video_id r = sr_video_id c /\
  video_path r = video_path c /\
  distance r = distance c /\
  (files !! temporal_path storage (sr_video_id c) = None -> r = c).
Proof. exact (rerank_candidate_identity fastdtw storage files Q c). Qed.

Lemma inner_comm (a b : vector) : Np.inner a b = Np.inner b a.
Proof.
  unfold Np.inner, Np.sum. revert b.
  induction a as [|x a IH]; intros [|y b]; cbn; try reflexivity.
  rewrite IH. ring.
Qed.

(** The variance and cosine terms of the temporal score do not depend on
    which of the two matrices is the query. *)
Theorem temporal_terms_are_symmetric (Q C : matrix) :
  var_similarity Q C = var_similarity C Q /\
  cosine_sim Q C = cosine_sim C Q.
Proof.
  split.
  - unfold var_similarity.
    rewrite (Rabs_minus_sym (Np.mean (Np.var_axis0 Q))).
    rewrite (Rplus_comm (Np.mean (Np.var_axis0 Q))). reflexivity.
  - unfold cosine_sim, Np.dot.
    rewrite (Nat.eqb_sym (length (Np.mean_axis0 Q))).
    destruct (Nat.eqb _ _); [| reflexivity].
    rewrite inner_comm, (Rmult_comm (Np.norm (Np.mean_axis0 Q))). reflexivity.
Qed.

Section SearchProperties.
Variable fastdtw :
  matrix -> matrix -> nat -> (vector -> vector -> result R) -> result R.
Variable storage : string.
Variable files : gmap string matrix.
Variable file_hash : string -> string.
Variable encode_video : string -> result VideoFeatures.
Variable savez_ok unlink_ok : string -> bool.
Variable search_similar :
  vector -> nat -> option SearchFilters -> result (list SearchResult).

Abbreviation search_here :=
  (search fastdtw storage files file_hash encode_video savez_ok unlink_ok
     search_similar).

Lemma length_slice_to_le (l : list SearchResult) (k : Z) :
  (length (slice_to l k) <= length l)%nat /\
  ((0 <= k)%Z -> (length (slice_to l k) <= Z.to_nat k)%nat).
Proof.
  unfold slice_to. destruct (Z.ltb_spec k 0); rewrite length_firstn; lia.
Qed.

(** Whatever the options, a search that returns a response reports as
    [total_results] the length of its result list, returns no more results
    than the vector index gave for the fixed fan-out of 50 and no more than
    [top_k] when that is not negative, and every result names a video the
    index returned. *)
Theorem search_returns_index_candidates (request : SearchRequest) (s : shared)
    (response : SearchResponse) :
  fst (search_here request s) = Some (Ok response) ->
  exists features candidates,
    search_similar (global_features features) 50 (filters request)
      = Ok candidates /\
    total_results response = length (results response) /\
    (length (results response) <= length candidates)%nat /\
    ((0 <= top_k request)%Z ->
     (length (results response) <= Z.to_nat (top_k request))%nat) /\
    (forall r, In r (results response) ->
       exists c, In c candidates /\ sr_video_id r = sr_video_id c /\
                 video_path r = video_path c).
Proof.
  unfold search.
  destruct (_encode_query_video _ _ _ _ _ s) as [[[features|e]|] s'];
    cbn [fst]; try discriminate.
  destruct (search_similar _ _ _) as [candidates|e] eqn:Hsim; cbn [fst];
    try discriminate.
  intros [= <-]. exists features, candidates. split; [exact Hsim |].
  cbn [results total_results]. split; [reflexivity |].
  destruct (_ && _).
  - unfold _rerank_results.
    pose proof (length_slice_to_le
                  (sort_desc (map (rerank_candidate fastdtw storage files
                                     (temporal_features features)) candidates))
                  (top_k request)) as [Hlen Hk].
    rewrite (Permutation_length (sort_desc_permutation _)), length_map in Hlen.
    split; [exact Hlen |]. split; [exact Hk |].
    intros r Hr.
    apply SearchFacts.rerank_results_are_rescored in Hr as (c & Hc & ->).
    exists c. split; [exact Hc |].
    pose proof (rerank_candidate_identity fastdtw storage files
                  (temporal_features features) c) as (Hid & Hpath & _).
    split; [exact Hid | exact Hpath].
  - pose proof (length_slice_to_le candidates (top_k request)) as [Hlen Hk].
    split; [exact Hlen |]. split; [exact Hk |].
    intros r Hr. exists r. split; [| split; reflexivity].
    eapply SearchFacts.in_slice_to, Hr.
Qed.

(** Without re-ranking the result list is the head of the index's list, in
    the index's order and with its scores; a negative [top_k] is not
    rejected but cuts that many results off the end. *)
Theorem search_without_reranking_is_a_prefix (request : SearchRequest)
    (s : shared) (response : SearchResponse) :
  (forall o, options request = Some o -> enable_reranking o = false) ->
  fst (search_here request s) = Some (Ok response) ->
  exists features candidates,
    search_similar (global_features features) 50 (filters request)
      = Ok candidates /\
    results response `prefix_of` candidates /\
    ((0 <= top_k request)%Z ->
     length (results response)
     = Nat.min (Z.to_nat (top_k request)) (length candidates)) /\
    ((top_k request < 0)%Z ->
     length (results response)
     = (length candidates - Z.to_nat (- top_k request))%nat).
Proof.
  intros Hopt. unfold search.
  destruct (_encode_query_video _ _ _ _ _ s) as [[[features|e]|] s'];
    cbn [fst]; try discriminate.
  destruct (search_similar _ _ _) as [candidates|e] eqn:Hsim; cbn [fst];
    try discriminate.
  assert (Hoff : match options request with
                 | Some o => enable_reranking o
                 | None => false
                 end = false).
  { destruct (options request) as [o|]; [apply Hopt; reflexivity | reflexivity]. }
  rewrite Hoff. cbn [andb].
  intros [= <-]. exists features, candidates. split; [exact Hsim |].
  cbn [results]. unfold slice_to.
  destruct (Z.ltb_spec (top_k request) 0) as [Hneg|Hpos].
  - split; [apply prefix_take |]. split; [lia |].
    intros _. rewrite length_firstn. lia.
  - split; [apply prefix_take |]. split; [| lia].
    intros _. apply length_firstn.
Qed.

End SearchProperties.

Lemma search_returns_index_candidates_witness :
  length (results response_reranked) = 2%nat /\
  exists features candidates,
    two_candidates (global_features features) 50 (filters request_reranked)
      = Ok candidates /\
    total_results response_reranked = length (results response_reranked) /\
    (length (results response_reranked) <= length candidates)%nat /\
    ((0 <= top_k request_reranked)%Z ->
     (length (results response_reranked)
      <= Z.to_nat (top_k request_reranked))%nat) /\
    (forall r, In r (results response_reranked) ->
       exists c, In c candidates /\ sr_video_id r = sr_video_id c /\
                 video_path r = video_path c).
Proof.
  split.
  - unfold response_reranked. cbn [results].
    rewrite length_rerank_results by lia. reflexivity.
  - apply (search_returns_index_candidates Np.dtw "./storage" files_opposite
             hash_of_content encoder_ok always always two_candidates
             request_reranked cold response_reranked).
    vm_compute. reflexivity.
Defined.

Lemma search_without_reranking_is_a_prefix_witness :
  (exists features candidates,
     two_candidates (global_features features) 50 (filters request_top_one)
       = Ok candidates /\
     results response_top_one `prefix_of` candidates /\
     ((0 <= top_k request_top_one)%Z ->
      length (results response_top_one)
      = Nat.min (Z.to_nat (top_k request_top_one)) (length candidates)) /\
     ((top_k request_top_one < 0)%Z ->
      length (results response_top_one)
      = (length candidates - Z.to_nat (- top_k request_top_one))%nat)) /\
  (exists features candidates,
     two_candidates (global_features features) 50 (filters request_drop_last)
       = Ok candidates /\
     results response_top_one `prefix_of` candidates /\
     ((0 <= top_k request_drop_last)%Z ->
      length (results response_top_one)
      = Nat.min (Z.to_nat (top_k request_drop_last)) (length candidates)) /\
     ((top_k request_drop_last < 0)%Z ->
      length (results response_top_one)
      = (length candidates - Z.to_nat (- top_k request_drop_last))%nat)).
Proof.
  split.
  - apply (search_without_reranking_is_a_prefix Np.dtw "./storage" ∅
             hash_of_content encoder_ok always always two_candidates
             request_top_one cold response_top_one).
    + intros o Ho. discriminate Ho.
    + vm_compute. reflexivity.
  - apply (search_without_reranking_is_a_prefix Np.dtw "./storage" ∅
             hash_of_content encoder_ok always always two_candidates
             request_drop_last cold response_top_one).
    + intros o Ho. discriminate Ho.
    + vm_compute. reflexivity.
Defined.

End SearchMore.

Module CacheMore.
Import Search SearchNotions.

Section SequentialQueries.
Variable file_hash : string -> string.
Variable encode_video : string -> result VideoFeatures.
Variable savez_ok unlink_ok : string -> bool.

Abbreviation encode_query :=
  (_encode_query_video file_hash encode_video savez_ok unlink_ok).

Lemma cached_after_success (path : string) (s : shared) (f : VideoFeatures) :
  fst (encode_query path s) = Some (Ok f) ->
  query_cache (snd (encode_query path s)) !! cache_key (file_hash path) = Some f.
Proof.
  unfold _encode_query_video. cbn.
  destruct (query_cache s !! _) as [f0|] eqn:Hmem; cbn.
  - intros [= <-]. exact Hmem.
  - destruct (disk_cache s !! _) as [[f1|]|]; cbn;
      try (destruct (encode_video path) as [f2|e]; cbn);
      intros [= <-]; apply lookup_insert_eq.
Qed.

(** After a query has returned features, a query of any file with the same
    fingerprint returns the same features from memory: it calls no encoder
    and leaves the caches as they are. *)
Theorem repeated_query_is_served_from_memory (path path' : string)
    (s : shared) (f : VideoFeatures) :
  fst (encode_query path s) = Some (Ok f) ->
  file_hash path' = file_hash path ->
  encode_query path' (snd (encode_query path s))
  = (Some (Ok f), snd (encode_query path s)).
Proof.
  intros Hfirst Hhash.
  pose proof (cached_after_success path s f Hfirst) as Hc.
  destruct (encode_query path s) as [r s']. cbn [snd] in *.
  unfold _encode_query_video. cbn. rewrite Hhash, Hc. reflexivity.
Qed.

(** A process whose memory is empty but whose disk cache holds a readable
    file for the fingerprint returns the stored features without calling the
    encoder, and keeps them in memory from then on. *)
Theorem disk_hit_skips_the_encoder (path : string) (s : shared)
    (f : VideoFeatures) :
  query_cache s !! cache_key (file_hash path) = None ->
  disk_cache s !! file_hash path = Some (Valid f) ->
  encode_query path s
  = (Some (Ok f),
     {| query_cache := <[cache_key (file_hash path) := f]> (query_cache s);
        disk_cache := disk_cache s;
        encoder_calls := encoder_calls s |}).
Proof.
  intros Hmem Hdisk. unfold _encode_query_video. cbn.
  rewrite Hmem. cbn. rewrite Hdisk. reflexivity.
Qed.

(** An encoder failure is not cached: the exception is returned, both caches
    stay as they were, and the next query of the file calls the encoder
    again. *)
Theorem encoder_failure_is_not_cached (path : string) (s : shared) (e : exn) :
  query_cache s !! cache_key (file_hash path) = None ->
  disk_cache s !! file_hash path = None ->
  encode_video path = Raise e ->
  let s1 := snd (encode_query path s) in
  fst (encode_query path s) = Some (Raise e) /\
  query_cache s1 = query_cache s /\
  disk_cache s1 = disk_cache s /\
  encoder_calls (snd (encode_query path s1))
  = (encoder_calls s ++ [(0%nat, path); (0%nat, path)])%list.
Proof.
  intros Hmem Hdisk Henc s1. subst s1. unfold _encode_query_video. cbn.
  rewrite Hmem. cbn. rewrite Hdisk. cbn. rewrite Henc. cbn.
  rewrite Hmem. cbn. rewrite Hdisk. cbn. rewrite Henc. cbn.
  rewrite <- app_assoc. repeat split; reflexivity.
Qed.

(** A cache file that cannot be read does not fail the query: the video is
    encoded once, the features are kept in memory, and the file is replaced
    by a readable one when it can be written. *)
Theorem unreadable_cache_file_is_replaced (path : string) (s : shared)
    (f : VideoFeatures) :
  query_cache s !! cache_key (file_hash path) = None ->
  disk_cache s !! file_hash path = Some Corrupt ->
  encode_video path = Ok f ->
  let s1 := snd (encode_query path s) in
  fst (encode_query path s) = Some (Ok f) /\
  query_cache s1 !! cache_key (file_hash path) = Some f /\
  encoder_calls s1 = (encoder_calls s ++ [(0%nat, path)])%list /\
  (savez_ok (file_hash path) = true ->
   disk_cache s1 !! file_hash path = Some (Valid f)).
Proof.
  intros Hmem Hdisk Henc s1. subst s1. unfold _encode_query_video. cbn.
  rewrite Hmem. cbn. rewrite Hdisk. cbn. rewrite Henc. cbn.
  split; [reflexivity |]. split; [apply lookup_insert_eq |].
  split; [destruct (unlink_ok _), (savez_ok _); reflexivity |].
  intros ->. destruct (unlink_ok _); cbn; apply lookup_insert_eq.
Qed.

(** **** Any interleaving *)

Abbreviation run :=
  (run_schedule file_hash encode_video savez_ok unlink_ok).

(** The in-memory cache has no eviction: under any interleaving of any
    threads an entry that is present stays present. *)
Theorem memory_cache_never_evicts (sched : list nat) (c : system) (k : string) :
  is_Some (query_cache (mem c) !! k) ->
  is_Some (query_cache (mem (run sched c)) !! k).
Proof.
  apply (SearchFacts.run_schedule_invariant file_hash encode_video savez_ok
           unlink_ok (fun c => is_Some (query_cache (mem c) !! k))).
  intros j c0 Hc0. unfold step_thread.
  destruct (threads c0 !! j) as [p|]; [| exact Hc0].
  pose proof (SearchFacts.thread_step_cache_grows file_hash encode_video
                savez_ok unlink_ok j (mem c0) p k Hc0) as Hg.
  destruct (thread_step _ _ _ _ j (mem c0) p). exact Hg.
Qed.

Lemma budget_sum_insert (l : list pc) (i : nat) (p q : pc) :
  l !! i = Some p ->
  (budget_sum (<[i := q]> l) + budget p = budget_sum l + budget q)%nat.
Proof.
  revert i.
  induction l as [|x l IH]; intros [|i] Hi; try discriminate Hi.
  - injection Hi as ->. change (<[0%nat := q]> (p :: l)) with (q :: l).
    cbn [budget_sum]. lia.
  - specialize (IH i Hi).
    change (<[S i := q]> (x :: l)) with (x :: <[i := q]> l).
    cbn [budget_sum]. lia.
Qed.

Lemma thread_step_spends (j : nat) (s : shared) (p : pc) :
  (length (encoder_calls (fst (thread_step file_hash encode_video savez_ok
                                 unlink_ok j s p)))
   + budget (snd (thread_step file_hash encode_video savez_ok unlink_ok j s p))
   <= length (encoder_calls s) + budget p)%nat.
Proof.
  destruct p; unfold thread_step;
    repeat match goal with
           | |- context [match ?x with _ => _ end] => destruct x
           end;
    unfold log_encoder_call, set_query_cache, set_disk_cache;
    cbn [fst snd encoder_calls budget]; rewrite ?length_app; cbn [length]; lia.
Qed.

Lemma budget_sum_start (s : shared) (paths : list string) :
  budget_sum (threads (start s paths)) = length paths.
Proof.
  unfold start. cbn [threads]. induction paths as [|x l IH];
    cbn [map budget_sum budget length]; [reflexivity | lia].
Qed.

(** Under any interleaving, queries that start together call the encoder at
    most once each: the number of calls grows by at most the number of
    queries. *)
Theorem encoder_calls_bounded_by_queries (sched : list nat) (s : shared)
    (paths : list string) :
  (length (encoder_calls (mem (run sched (start s paths))))
   <= length (encoder_calls s) + length paths)%nat.
Proof.
  assert (Hinv : forall c,
    (length (encoder_calls (mem c)) + budget_sum (threads c)
     <= length (encoder_calls s) + length paths)%nat ->
    (length (encoder_calls (mem (run sched c))) + budget_sum (threads (run sched c))
     <= length (encoder_calls s) + length paths)%nat).
  { apply (SearchFacts.run_schedule_invariant file_hash encode_video savez_ok
             unlink_ok
             (fun c => (length (encoder_calls (mem c)) + budget_sum (threads c)
                        <= length (encoder_calls s) + length paths)%nat)).
    intros j c Hc. unfold step_thread.
    destruct (threads c !! j) as [p|] eqn:Hj; [| exact Hc].
    pose proof (thread_step_spends j (mem c) p) as Hs.
    destruct (thread_step _ _ _ _ j (mem c) p) as [s' q]. cbn [fst snd mem threads] in *.
    pose proof (budget_sum_insert (threads c) j p q Hj). lia. }
  specialize (Hinv (start s paths)).
  pose proof (budget_sum_start s paths) as H0.
  cbn [mem start] in Hinv. rewrite H0 in Hinv.
  specialize (Hinv ltac:(cbn; lia)). lia.
Qed.

End SequentialQueries.

Lemma repeated_query_is_served_from_memory_witness :
  _encode_query_video hash_of_content encoder_ok always always "q.mp4"
    (snd (_encode_query_video hash_of_content encoder_ok always always "q.mp4" cold))
  = (Some (Ok query_features),
     snd (_encode_query_video hash_of_content encoder_ok always always "q.mp4" cold)).
Proof.
  apply (repeated_query_is_served_from_memory hash_of_content encoder_ok always
           always "q.mp4" "q.mp4" cold query_features); reflexivity.
Defined.

Lemma disk_hit_skips_the_encoder_witness :
  _encode_query_video hash_of_content encoder_ok always always "q.mp4" disk_only
  = (Some (Ok query_features),
     {| query_cache := <[cache_key (hash_of_content "q.mp4") := query_features]>
                         (query_cache disk_only);
        disk_cache := disk_cache disk_only;
        encoder_calls := encoder_calls disk_only |}).
Proof.
  apply (disk_hit_skips_the_encoder hash_of_content encoder_ok always always
           "q.mp4" disk_only query_features); reflexivity.
Defined.

Lemma encoder_failure_is_not_cached_witness :
  let s1 := snd (_encode_query_video hash_of_content encoder_fails always always
                   "q.mp4" cold) in
  fst (_encode_query_video hash_of_content encoder_fails always always "q.mp4" cold)
  = Some (Raise (Exception decode_error "not a parseable video")) /\
  query_cache s1 = query_cache cold /\
  disk_cache s1 = disk_cache cold /\
  encoder_calls (snd (_encode_query_video hash_of_content encoder_fails always
                        always "q.mp4" s1))
  = (encoder_calls cold ++ [(0%nat, "q.mp4"); (0%nat, "q.mp4")])%list.
Proof.
  apply (encoder_failure_is_not_cached hash_of_content encoder_fails always
           always "q.mp4" cold
           (Exception decode_error "not a parseable video")); reflexivity.
Defined.

Lemma unreadable_cache_file_is_replaced_witness :
  let s1 := snd (_encode_query_video hash_of_content encoder_ok always always
                   "q.mp4" corrupted) in
  fst (_encode_query_video hash_of_content encoder_ok always always "q.mp4" corrupted)
  = Some (Ok query_features) /\
  query_cache s1 !! cache_key (hash_of_content "q.mp4") = Some query_features /\
  encoder_calls s1 = (encoder_calls corrupted ++ [(0%nat, "q.mp4")])%list /\
  (always (hash_of_content "q.mp4") = true ->
   disk_cache s1 !! hash_of_content "q.mp4" = Some (Valid query_features)).
Proof.
  apply (unreadable_cache_file_is_replaced hash_of_content encoder_ok always
           always "q.mp4" corrupted query_features); reflexivity.
Defined.

Lemma memory_cache_never_evicts_witness :
  is_Some (query_cache
             (mem (run_schedule hash_of_content encoder_ok always always
                     [0; 1; 0; 1]%nat (start warm ["a.mp4"; "b.mp4"])))
           !! cache_key "q.mp4").
Proof.
  apply (memory_cache_never_evicts hash_of_content encoder_ok always always
           [0; 1; 0; 1]%nat (start warm ["a.mp4"; "b.mp4"]) (cache_key "q.mp4")).
  exists query_features. vm_compute. reflexivity.
Defined.

End CacheMore.

Module AnomalyMore.
Import Anomaly Baseline.
Local Open Scope R_scope.

Section BaselineFacts.
Variable encode_video : string -> result VideoFeatures.

Lemma gather_lengths (paths : list string) :
  let '(variances, magnitudes, features) := gather encode_video paths in
  length features = length (List.filter (encodable encode_video) paths) /\
  length variances = length features /\
  length magnitudes = length features.
Proof.
  induction paths as [|p paths IH]; cbn [gather List.filter]; [auto |].
  destruct (gather encode_video paths) as [[vs ms] ts].
  unfold encodable at 1. destruct (encode_video p); cbn [length]; lia.
Qed.

(** When no video of the list can be encoded (an empty list included),
    [establish_baseline] raises [ValueError] and the baseline it had before,
    if any, stays in place; the encoder has been called once for every path,
    in order. *)
Theorem baseline_needs_a_valid_video (paths : list string) (s : service) :
  (forall p, In p paths -> encodable encode_video p = false) ->
  establish_baseline encode_video paths s
  = (Raise (ValueError "No valid videos processed for baseline"),
     {| baseline_features := baseline_features s;
        encoder_calls := (encoder_calls s ++ paths)%list |}).
Proof.
  intros Hnone. unfold establish_baseline.
  assert (Hg : gather encode_video paths = ([], [], [])).
  { induction paths as [|p paths IH]; cbn [gather]; [reflexivity |].
    rewrite IH by (intros q Hq; apply Hnone; right; exact Hq).
    specialize (Hnone p (or_introl eq_refl)). unfold encodable in Hnone.
    destruct (encode_video p); [discriminate | reflexivity]. }
  rewrite Hg. reflexivity.
Qed.

(** A baseline that is established from videos of at least two time steps
    and one dimension counts exactly the videos whose encoding succeeded,
    at least one; it is installed in the service, the encoder has been
    called once for every path in order, and its standard deviations are
    not negative. *)
Theorem baseline_counts_valid_videos (paths : list string) (s : service)
    (b : baseline) :
  (forall p f, In p paths -> encode_video p = Ok f ->
     well_shaped (temporal_features f)) ->
  fst (establish_baseline encode_video paths s) = Ok b ->
  num_videos b = length (List.filter (encodable encode_video) paths) /\
  (1 <= num_videos b)%nat /\
  snd (establish_baseline encode_video paths s)
  = {| baseline_features := Some b;
       encoder_calls := (encoder_calls s ++ paths)%list |} /\
  0 <= std_motion_magnitude b /\
  Forall (fun sd => 0 <= sd) (std_temporal_variance b).
Proof.
  intros _. unfold establish_baseline.
  pose proof (gather_lengths paths) as Hlen.
  destruct (gather encode_video paths) as [[vs ms] ts].
  destruct Hlen as (Hts & _ & _).
  destruct ts as [|t ts]; cbn [fst]; [discriminate |].
  destruct (stack vs) as [m|e]; cbn [fst snd]; [| discriminate].
  intros [= <-]. cbn [num_videos std_motion_magnitude std_temporal_variance].
  split; [exact Hts |]. split; [cbn; lia |]. split; [reflexivity |].
  split; [apply sqrt_pos |].
  unfold std_axis0. apply List.Forall_forall. intros x Hx.
  apply in_map_iff in Hx as (j & <- & _). apply sqrt_pos.
Qed.

End BaselineFacts.

Lemma baseline_needs_a_valid_video_witness :
  establish_baseline encoder_fails_all ["a.mp4"; "b.mp4"] with_baseline
  = (Raise (ValueError "No valid videos processed for baseline"),
     {| baseline_features := baseline_features with_baseline;
        encoder_calls := (encoder_calls with_baseline ++ ["a.mp4"; "b.mp4"])%list |}).
Proof.
  apply (baseline_needs_a_valid_video encoder_fails_all ["a.mp4"; "b.mp4"]
           with_baseline).
  intros p _. reflexivity.
Defined.

Lemma baseline_counts_valid_videos_witness :
  num_videos walking_baseline
  = length (List.filter (encodable encoder_walk_only) ["walk.mp4"; "bad.mp4"]) /\
  (1 <= num_videos walking_baseline)%nat /\
  snd (establish_baseline encoder_walk_only ["walk.mp4"; "bad.mp4"] fresh)
  = {| baseline_features := Some walking_baseline;
       encoder_calls := (encoder_calls fresh ++ ["walk.mp4"; "bad.mp4"])%list |} /\
  0 <= std_motion_magnitude walking_baseline /\
  Forall (fun sd => 0 <= sd) (std_temporal_variance walking_baseline).
Proof.
  refine (baseline_counts_valid_videos encoder_walk_only ["walk.mp4"; "bad.mp4"]
            fresh walking_baseline _ eq_refl).
  intros p f [<-|[<-|[]]]; cbn; intros [= <-]. split; cbn; lia.
Defined.

Section DetectorFacts.
Variable encode_video : string -> result VideoFeatures.

(** Both detectors, once past the baseline test, call the encoder exactly
    once and never change the baseline, whether they then return or raise. *)
Theorem detectors_only_read_the_baseline (video_path : string) (tau : R)
    (window_size : nat) (s : service) (b : baseline) :
  baseline_features s = Some b ->
  let called := {| baseline_features := Some b;
                   encoder_calls := (encoder_calls s ++ [video_path])%list |} in
  snd (detect_anomaly encode_video video_path tau s) = called /\
  snd (detect_temporal_anomalies encode_video video_path window_size s) = called.
Proof.
  intros Hb called. subst called.
  unfold detect_anomaly, detect_temporal_anomalies, call_encoder.
  rewrite Hb. destruct (encode_video video_path) as [f|e]; cbn [snd].
  - split; [| reflexivity].
    destruct (Np.broadcast _ _ _); [| reflexivity].
    destruct (Np.broadcast _ _ _); reflexivity.
  - split; reflexivity.
Qed.

Lemma broadcast_nonneg (f : R -> R -> R) (a b out : vector) :
  (forall x y, In x a -> In y b -> 0 <= f x y) ->
  Np.broadcast f a b = Ok out -> Forall (fun x => 0 <= x) out.
Proof.
  intros Hf. unfold Np.broadcast.
  assert (Hzip : Forall (fun x => 0 <= x) (zip_with f a b)).
  { clear -Hf. revert b Hf. induction a as [|x a IH]; intros [|y b] Hf; cbn;
      try constructor.
    - apply Hf; left; reflexivity.
    - apply IH. intros x' y' Hx Hy. apply Hf; right; assumption. }
  destruct (Nat.eqb _ _); [intros [= <-]; exact Hzip |].
  assert (Hmap : forall (g : R -> R) (l : vector),
            (forall u, In u l -> 0 <= g u) -> Forall (fun x => 0 <= x) (map g l)).
  { intros g l Hg. apply List.Forall_forall. intros z Hz.
    apply in_map_iff in Hz as (u & <- & Hu). apply Hg, Hu. }
  destruct a as [|x [|x' a]], b as [|y [|y' b]]; try discriminate;
    intros [= <-];
    repeat (apply List.Forall_cons; [apply Hf; cbn; tauto |]);
    first [solve [constructor]
          | apply Hmap; intros u Hu; apply Hf; cbn in *; tauto].
Qed.

(** For a baseline whose standard deviations are not negative, the variance
    z-score and the anomaly score that [detect_anomaly] reports are not
    negative (for arrays that are not empty, so that the scores are
    numbers). *)
Theorem anomaly_score_is_nonnegative (video_path : string) (tau : R)
    (s : service) (b : baseline) (f : VideoFeatures) (r : detection) :
  baseline_features s = Some b ->
  nonempty_baseline b ->
  Forall (fun sd => 0 <= sd) (std_temporal_variance b) ->
  encode_video video_path = Ok f ->
  well_shaped (temporal_features f) ->
  fst (detect_anomaly encode_video video_path tau s) = Ok r ->
  0 <= variance_z_score r /\ 0 <= anomaly_score r.
Proof.
  intros Hb _ Hsd Henc _. unfold detect_anomaly, call_encoder. rewrite Hb, Henc.
  cbn [fst].
  destruct (Np.broadcast _ _ (mean_temporal_variance b)) as [diffs|e] eqn:Hdiff;
    cbn [fst]; [| discriminate].
  destruct (Np.broadcast _ diffs _) as [ratios|e] eqn:Hratio;
    cbn [fst]; [| discriminate].
  intros [= <-]. cbn [variance_z_score anomaly_score].
  assert (Hd : Forall (fun x => 0 <= x) diffs).
  { eapply broadcast_nonneg; [| exact Hdiff]. intros x y _ _. apply Rabs_pos. }
  assert (Hr : Forall (fun x => 0 <= x) ratios).
  { eapply broadcast_nonneg; [| exact Hratio]. intros x y Hx Hy.
    rewrite List.Forall_forall in Hd, Hsd.
    specialize (Hd x Hx). specialize (Hsd y Hy).
    apply Rmult_le_pos; [exact Hd |]. left. apply Rinv_0_lt_compat. lra. }
  pose proof (NpFacts.mean_nonneg ratios Hr) as Hmean.
  split; [exact Hmean |].
  pose proof (Rabs_pos (z_score b (motion_of (temporal_features f)))). lra.
Qed.

(** The confidence reported by [detect_anomaly] never exceeds 100, and for a
    positive threshold every video flagged as anomalous has confidence
    exactly 100. *)
Theorem flagged_video_has_full_confidence (video_path : string) (tau : R)
    (s : service) (r : detection) :
  fst (detect_anomaly encode_video video_path tau s) = Ok r ->
  confidence r <= 100 /\
  (0 < tau -> is_anomaly r = true -> confidence r = 100).
Proof.
  unfold detect_anomaly, call_encoder.
  destruct (baseline_features s) as [b|]; cbn [fst]; [| discriminate].
  destruct (encode_video video_path) as [f|e]; cbn [fst]; [| discriminate].
  destruct (Np.broadcast _ _ (mean_temporal_variance b)) as [diffs|e];
    cbn [fst]; [| discriminate].
  destruct (Np.broadcast _ diffs _) as [ratios|e]; cbn [fst]; [| discriminate].
  intros [= <-]. cbn [confidence is_anomaly]. split; [apply Rmin_l |].
  intros Htau Hflag. apply AnomalyFacts.gt_true in Hflag.
  apply Rmin_left.
  set (score := (Rabs _ + _) / 2) in *.
  assert (Hone : tau * / tau = 1) by (apply Rinv_r; lra).
  pose proof (Rinv_0_lt_compat _ Htau) as Hinv.
  unfold Rdiv.
  assert (1 <= score * / tau).
  { assert (0 <= (score - tau) * / tau) by (apply Rmult_le_pos; lra). lra. }
  lra.
Qed.


Lemma nth_seq_identity (v : vector) :
  map (fun j => nth j v 0) (seq 0 (length v)) = v.
Proof.
  induction v as [|x v IH]; cbn [length seq map nth]; [reflexivity |].
  f_equal. rewrite <- seq_shift, map_map. exact IH.
Qed.

Lemma mean_axis0_one_row (v : vector) : Np.mean_axis0 [v] = v.
Proof.
  unfold Np.mean_axis0, Np.column. cbn [Np.ncols map].
  rewrite <- (nth_seq_identity v) at 2.
  apply map_ext. intros j. apply NpFacts.mean_singleton.
Qed.

Lemma mean_of_zeros (l : vector) : Forall (fun x => x = 0) l -> Np.mean l = 0.
Proof.
  intros Hl. unfold Np.mean.
  assert (Hs : Np.sum l = 0).
  { unfold Np.sum. induction Hl as [|x l Hx _ IH]; cbn; [reflexivity | lra]. }
  rewrite Hs. unfold Rdiv. apply Rmult_0_l.
Qed.

Lemma zip_with_zero_left (g : R -> R -> R) (a b : vector) :
  (forall y, g 0 y = 0) -> Forall (fun x => x = 0) a ->
  Forall (fun x => x = 0) (zip_with g a b).
Proof.
  intros Hg Ha. revert b. induction Ha as [|x a Hx _ IH]; intros [|y b]; cbn;
    constructor; [subst x; apply Hg | apply IH].
Qed.

Lemma zip_with_diagonal (h : R -> R -> R) (v : vector) :
  (forall x, h x x = 0) -> Forall (fun x => x = 0) (zip_with h v v).
Proof.
  intros Hh. induction v as [|x v IH]; cbn; constructor; [apply Hh | exact IH].
Qed.

(** A baseline established from a single video (of at least two time
    steps and one dimension) has no spread, and the [1e-8] in the
    denominators keeps the z-scores defined: that same video then scores
    exactly 0 and is not flagged for any threshold that is not negative. *)
Theorem lone_baseline_video_scores_zero (video_path : string) (tau : R)
    (s : service) (f : VideoFeatures) :
  encode_video video_path = Ok f ->
  well_shaped (temporal_features f) ->
  0 <= tau ->
  let s1 := snd (establish_baseline encode_video [video_path] s) in
  exists r, fst (detect_anomaly encode_video video_path tau s1) = Ok r /\
    anomaly_score r = 0 /\ is_anomaly r = false.
Proof.
  intros Henc _ Htau s1. subst s1.
  unfold establish_baseline. cbn [gather]. rewrite Henc.
  set (V := Np.var_axis0 (temporal_features f)).
  set (m := motion_of (temporal_features f)).
  unfold stack. cbn [forallb Np.ncols]. rewrite Nat.eqb_refl. cbn [andb snd].
  unfold detect_anomaly, call_encoder. cbn [baseline_features].
  rewrite Henc. fold V. fold m.
  cbn [mean_temporal_variance std_temporal_variance].
  rewrite mean_axis0_one_row.
  rewrite NpFacts.broadcast_same_length by reflexivity.
  rewrite NpFacts.broadcast_same_length
    by (unfold std_axis0; rewrite length_zip_with, length_map, length_seq;
        cbn [Np.ncols]; lia).
  eexists. split; [reflexivity |]. cbn [anomaly_score is_anomaly].
  assert (Hz : z_score {| mean_temporal_variance := V;
                          std_temporal_variance := std_axis0 [V];
                          mean_motion_magnitude := Np.mean [m];
                          std_motion_magnitude := std [m];
                          num_videos := length [temporal_features f] |} m = 0).
  { unfold z_score. cbn [mean_motion_magnitude std_motion_magnitude].
    rewrite NpFacts.mean_singleton, Rminus_diag. unfold Rdiv. apply Rmult_0_l. }
  assert (Hv : Np.mean
                 (zip_with (fun d sd => d / (sd + 1e-8))
                    (zip_with (fun v mu => Rabs (v - mu)) V V)
                    (std_axis0 [V])) = 0).
  { apply mean_of_zeros, zip_with_zero_left.
    - intros y. unfold Rdiv. apply Rmult_0_l.
    - apply zip_with_diagonal. intros x. rewrite Rminus_diag. apply Rabs_R0. }
  assert (Hscore : (Rabs (z_score
                      {| mean_temporal_variance := V;
                         std_temporal_variance := std_axis0 [V];
                         mean_motion_magnitude := Np.mean [m];
                         std_motion_magnitude := std [m];
                         num_videos := length [temporal_features f] |} m)
                    + Np.mean
                        (zip_with (fun d sd => d / (sd + 1e-8))
                           (zip_with (fun v mu => Rabs (v - mu)) V V)
                           (std_axis0 [V]))) / 2 = 0).
  { rewrite Hz, Hv, Rabs_R0. lra. }
  split; [exact Hscore |].
  rewrite Hscore. unfold gt. destruct (Rlt_dec tau 0); [lra | reflexivity].
Qed.

End DetectorFacts.

Lemma lone_baseline_video_scores_zero_witness :
  exists r,
    fst (detect_anomaly encoder_walking "walk.mp4" 2
           (snd (establish_baseline encoder_walking ["walk.mp4"] fresh))) = Ok r /\
    anomaly_score r = 0 /\ is_anomaly r = false.
Proof.
  refine (lone_baseline_video_scores_zero encoder_walking "walk.mp4" 2 fresh
            walking eq_refl _ _).
  - split; cbn; lia.
  - lra.
Defined.

Lemma detectors_only_read_the_baseline_witness :
  let called := {| baseline_features := baseline_features with_baseline;
                   encoder_calls := (encoder_calls with_baseline ++ ["walk.mp4"])%list |} in
  snd (detect_anomaly encoder_walking "walk.mp4" 2 with_baseline) = called /\
  snd (detect_temporal_anomalies encoder_walking "walk.mp4" 16 with_baseline) = called.
Proof.
  exact (detectors_only_read_the_baseline encoder_walking "walk.mp4" 2 16
           with_baseline _ eq_refl).
Defined.

Lemma anomaly_score_is_nonnegative_witness :
  exists r, fst (detect_anomaly encoder_walking "walk.mp4" 2 with_baseline) = Ok r /\
    0 <= variance_z_score r /\ 0 <= anomaly_score r.
Proof.
  eexists. split; [reflexivity |].
  refine (anomaly_score_is_nonnegative encoder_walking "walk.mp4" 2
            with_baseline _ walking _ eq_refl _ _ eq_refl _ eq_refl).
  - split; discriminate.
  - repeat constructor. cbn. lra.
  - split; cbn; lia.
Defined.

(** The video [biking] against the baseline of [with_baseline]: its motion
    magnitude is 5, the variance of its one dimension is 25/4. *)
Lemma biking_motion : motion_of (temporal_features biking) = 5.
Proof.
  unfold motion_of, Np.norm_axis1. cbn [temporal_features biking Np.diff map zip_with].
  rewrite NpFacts.norm_singleton, NpFacts.mean_singleton.
  replace (5 - 0) with 5 by lra. apply Rabs_pos_eq. lra.
Qed.

Lemma biking_variance : Np.var_axis0 (temporal_features biking) = [25 / 4].
Proof.
  unfold Np.var_axis0, Np.column. cbn [temporal_features biking Np.ncols length seq map nth].
  f_equal. unfold Np.var.
  assert (Hmean : Np.mean [0; 5] = 5 / 2).
  { unfold Np.mean, Np.sum. cbn [fold_right length INR]. lra. }
  rewrite Hmean. unfold Np.mean, Np.sum. cbn [map fold_right length INR]. lra.
Qed.


Lemma biking_z_score :
  z_score {| mean_temporal_variance := [0]; std_temporal_variance := [1];
             mean_motion_magnitude := 1; std_motion_magnitude := 1;
             num_videos := 10 |} 5 > 3.
Proof.
  unfold z_score. cbn [mean_motion_magnitude std_motion_magnitude].
  assert (H : 3 < (5 - 1) / (1 + 1e-8)).
  { apply Rmult_lt_reg_r with (1 + 1e-8); [lra |].
    unfold Rdiv. rewrite Rmult_assoc, Rinv_l by lra. lra. }
  lra.
Qed.

Lemma flagged_video_has_full_confidence_witness :
  exists r, fst (detect_anomaly encoder_biking "bike.mp4" 2 with_baseline) = Ok r /\
    is_anomaly r = true /\
    confidence r = 100.
Proof.
  destruct (fst (detect_anomaly encoder_biking "bike.mp4" 2 with_baseline))
    as [r|e] eqn:Hrun.
  - exists r. split; [reflexivity |].
    pose proof (flagged_video_has_full_confidence encoder_biking "bike.mp4" 2
                  with_baseline r Hrun) as [_ Hfull].
    assert (Hflag : is_anomaly r = true).
    { unfold detect_anomaly, call_encoder in Hrun.
      cbn [baseline_features with_baseline encoder_biking] in Hrun.
      rewrite biking_motion, biking_variance in Hrun.
      cbn [mean_temporal_variance std_temporal_variance] in Hrun.
      rewrite !NpFacts.broadcast_same_length in Hrun by reflexivity.
      cbn [fst zip_with] in Hrun. injection Hrun as <-.
      cbn [is_anomaly]. apply AnomalyFacts.gt_true.
      rewrite NpFacts.mean_singleton.
      pose proof biking_z_score as Hz.
      assert (Habs : Rabs (z_score
                        {| mean_temporal_variance := [0];
                           std_temporal_variance := [1];
                           mean_motion_magnitude := 1;
                           std_motion_magnitude := 1; num_videos := 10 |} 5) > 3).
      { rewrite Rabs_pos_eq by lra. exact Hz. }
      assert (Hv : 6 < Rabs (25 / 4 - 0) / (1 + 1e-8)).
      { rewrite Rabs_pos_eq by lra.
        apply Rmult_lt_reg_r with (1 + 1e-8); [lra |].
        unfold Rdiv. rewrite Rmult_assoc, Rinv_l by lra. lra. }
      lra. }
    split; [exact Hflag |]. apply Hfull; [lra | exact Hflag].
  - exfalso. unfold detect_anomaly, call_encoder in Hrun.
    cbn [baseline_features with_baseline encoder_biking] in Hrun.
    rewrite biking_variance in Hrun.
    cbn [mean_temporal_variance std_temporal_variance] in Hrun.
    rewrite !NpFacts.broadcast_same_length in Hrun by reflexivity.
    discriminate Hrun.
Defined.


End AnomalyMore.
